(** * UnivNet feature extractor: a shallow embedding and its properties

    Source: [src/transformers/models/univnet/feature_extraction_univnet.py],
    class [UnivNetFeatureExtractor].

    Conventions of the embedding.
    - Python [int]s are [Z]; array shapes and indices are [nat].
    - Python and NumPy floating-point numbers are the real numbers they
      denote: [+ - * /], [np.sqrt], [np.log], [np.exp] and [np.clip] are the
      functions of [Reals], without rounding.  A conversion to single
      precision ([astype(np.float32)], [dtype=np.float32]) is the rounding
      [np_float32]; a conversion to double precision changes nothing.
      Outside the domain of [sqrt], [ln] and [/], where NumPy yields [nan]
      or [inf], the model says nothing about the code.
    - A 2-D [np.ndarray] is a record of its shape and its rows; every array
      operation builds its result from the declared shape and reads its
      arguments through [get].
    - A raised exception is the [Raise] branch of [result]; code that logs,
      draws random numbers or asks the OS for entropy runs in the monad [M],
      which threads an explicit [State].
    - The utilities the class imports from elsewhere in the library
      ([spectrogram], [window_function], [mel_filter_bank],
      [optimal_fft_length], [SequenceFeatureExtractor.pad], [__repr__]) and
      NumPy's random generator are the fields of the class [Collaborators]. *)

From Stdlib Require Import Reals Lra Lia ZArith List.
From Stdlib Require PrimFloat.
From stdpp Require Import base gmap strings list pretty.

Set Warnings "-inexact-float".

Local Open Scope Z_scope.

(** ** Exceptions *)

Inductive exception : Type :=
  | ValueError (msg : string)
  | IndexError (msg : string).

Inductive result (A : Type) : Type :=
  | Ok (a : A)
  | Raise (e : exception).
Arguments Ok {A} a.
Arguments Raise {A} e.

Definition rbind {A B} (r : result A) (k : A → result B) : result B :=
  match r with
  | Ok a => k a
  | Raise e => Raise e
  end.

Notation "'try' x ← r ; k" := (rbind r (λ x, k))
  (at level 10, x name, r at level 100, k at level 200).

(** A list comprehension whose body may raise: the first exception wins. *)
Fixpoint rmap {A B} (f : A → result B) (l : list A) : result (list B) :=
  match l with
  | [] => Ok []
  | x :: l' => try y ← f x; try ys ← rmap f l'; Ok (y :: ys)
  end.

(** ** Arrays *)

Record complex : Type := Complex { re : R; im : R }.

Global Instance R_inhabited : Inhabited R := populate 0%R.
Global Instance complex_inhabited : Inhabited complex := populate (Complex 0 0).

Record array2 (A : Type) : Type := Array2 {
  shape0 : nat;
  shape1 : nat;
  rows : list (list A)
}.
Arguments Array2 {A} shape0 shape1 rows.
Arguments shape0 {A} a.
Arguments shape1 {A} a.
Arguments rows {A} a.

Section Arrays.
Context {A : Type} `{Inhabited A}.

(** [a[i, j]] *)
Definition get (a : array2 A) (i j : nat) : A :=
  nth j (nth i (rows a) []) inhabitant.

(** The array of shape [(n, m)] whose entry [(i, j)] is [f i j]. *)
Definition tabulate (n m : nat) (f : nat → nat → A) : array2 A :=
  Array2 n m (map (λ i, map (f i) (seq 0 m)) (seq 0 n)).

(** [a.T] *)
Definition transpose (a : array2 A) : array2 A :=
  tabulate (shape1 a) (shape0 a) (λ i j, get a j i).

(** [np.full((n, m), v)] *)
Definition np_full (n : Z) (m : nat) (v : A) : result (array2 A) :=
  if n <? 0 then Raise (ValueError "negative dimensions are not allowed")
  else Ok (tabulate (Z.to_nat n) m (λ _ _, v)).

(** [np.concatenate([a, b], axis=-2)] *)
Definition np_concatenate (a b : array2 A) : result (array2 A) :=
  if negb (shape1 a =? shape1 b)%nat
  then Raise (ValueError "all the input array dimensions except for the concatenation axis must match exactly")
  else Ok (tabulate (shape0 a + shape0 b) (shape1 a)
             (λ i j, if (i <? shape0 a)%nat then get a i j else get b (i - shape0 a) j)).

(** Index read by position [j] (possibly outside [0..n-1]) of the
    reflected extension of an axis of length [n]. *)
Definition reflect_index (n : nat) (j : Z) : nat :=
  if (n <=? 1)%nat then 0%nat
  else
    let period := 2 * (Z.of_nat n - 1) in
    let r := j mod period in
    Z.to_nat (if r <? Z.of_nat n then r else period - r).

(** [np.pad(w, (before, after), mode="reflect")] on a 1-D array. *)
Definition np_pad_reflect (w : list A) (before after : Z) : result (list A) :=
  if (before <? 0) || (after <? 0)
  then Raise (ValueError "index can't contain negative values")
  else
    match w with
    | [] =>
        if (before =? 0) && (after =? 0) then Ok []
        else Raise (ValueError "can't extend empty axis 0 using modes other than 'constant' or 'empty'")
    | x :: _ =>
        Ok (map (λ i, nth (reflect_index (length w) (Z.of_nat i - before)) w x)
              (seq 0 (Z.to_nat before + length w + Z.to_nat after)))
    end.
End Arrays.

(** Elementwise application of a scalar function (NumPy broadcasting). *)
Definition amap {A B} `{Inhabited A} (f : A → B) (a : array2 A) : array2 B :=
  tabulate (shape0 a) (shape1 a) (λ i j, f (get a i j)).

(** [sum(f(k) for k in range(n))] *)
Definition sum_range (n : nat) (f : nat → R) : R :=
  fold_right Rplus 0%R (map f (seq 0 n)).

(** [np.matmul(a, b)] on 2-D arrays. *)
Definition np_matmul (a b : array2 R) : result (array2 R) :=
  if negb (shape1 a =? shape0 b)%nat
  then Raise (ValueError "matmul: Input operand 1 has a mismatch in its core dimension 0")
  else Ok (tabulate (shape0 a) (shape1 b)
             (λ i j, sum_range (shape1 a) (λ k, get a i k * get b k j)%R)).

(** ** Single precision

    [np_float32 x] is the number NumPy stores when the real [x] is converted
    to dtype float32 and the result is finite: the nearest number with 24
    significant bits and a binary exponent of at least -126 (so multiples of
    2^-149 near zero), ties going to the even significand.  A result of
    magnitude 2^128 or more stands for an infinity, which the model does not
    represent. *)

Definition round_half_even (y : R) : Z :=
  let n := Zfloor y in
  if Rlt_dec (y - IZR n) (1 / 2) then n
  else if Rlt_dec (1 / 2) (y - IZR n) then n + 1
  else if Z.even n then n else n + 1.

(** [floor(log2 |x|)], not below the smallest normal exponent. *)
Definition binary_exponent (x : R) : Z :=
  Z.max (-126) (Zfloor (ln (Rabs x) / ln 2)).

Definition np_float32 (x : R) : R :=
  if Req_dec_T x 0 then 0%R
  else
    let quantum := powerRZ 2 (binary_exponent x - 23) in
    (IZR (round_half_even (x / quantum)) * quantum)%R.


(** [np.full((n, m), v, dtype=np.float32)] *)
Definition np_full_float32 (n : Z) (m : nat) (v : R) : result (array2 R) :=
  np_full n m (np_float32 v).

(** ** The extractor instance

    The attributes [__init__] assigns, with the three the superclass
    constructor stores ([feature_size], [sampling_rate], [padding_value]). *)

Record UnivNetFeatureExtractor : Type := {
  feature_size : Z;
  sampling_rate : Z;
  padding_value : R;
  do_normalize : bool;
  num_mel_bins : Z;
  hop_length : Z;
  win_length : Z;
  win_function : string;
  filter_length : option Z;
  fmin : R;
  fmax : R;
  mel_floor : R;
  max_length_s : Z;
  num_max_samples : Z;
  n_fft : Z;
  n_freqs : Z;
  window : list R;
  mel_filters : array2 R;
  center : bool;
  compression_factor : R;
  compression_clip_val : R;
  normalize_min : R;
  normalize_max : R;
  model_in_channels : Z;
  pad_end_length : Z;
  spectrogram_zero : R
}.

(** The [padding] argument of [__call__]: [Union[bool, str, PaddingStrategy]]. *)
Inductive padding_arg : Type :=
  | PaddingBool (b : bool)
  | PaddingStr (s : string).

Inductive TensorType : Type := TF | PT | NP | JAX.

(** The [raw_speech] argument of [__call__]:
    [Union[np.ndarray, List[float], List[np.ndarray], List[List[float]]]].
    An [np.ndarray] has one axis, two axes, or at least three (its shape is
    then [d0 :: d1 :: d2 :: ds]); a list holds floats or mono sequences. *)
Inductive raw_speech_t : Type :=
  | NdArray1 (w : list R)
  | NdArray2 (a : array2 R)
  | NdArrayN (d0 d1 d2 : nat) (ds : list nat) (data : list R)
  | ListOfFloat (l : list R)
  | ListOfSeq (l : list (list R)).

(** Arguments of [__call__] other than [generator], which is an object of
    the [State]. *)
Record call_args : Type := {
  a_raw_speech : raw_speech_t;
  a_sampling_rate : option Z;
  a_padding : padding_arg;
  a_max_length : option Z;
  a_truncation : bool;
  a_pad_to_multiple_of : option Z;
  a_return_noise : bool;
  a_model_in_channels : option Z;
  a_pad_end : bool;
  a_pad_length : option Z;
  a_spectrogram_zero : option R;
  a_do_normalize : option bool;
  a_return_tensors : option TensorType
}.

(** The returned [BatchFeature]: the key ["spectrogram"], the key
    ["noise_sequence"] when present, and the tensor framework the values
    were converted to, if any.  ["input_features"] is deleted before the
    return. *)
Record BatchFeature : Type := {
  bf_spectrogram : list (array2 R);
  bf_noise_sequence : option (list (array2 R));
  bf_tensor_type : option TensorType
}.

(** Values of the serialized configuration. *)
Inductive pyval : Type :=
  | PyNone
  | PyBool (b : bool)
  | PyInt (z : Z)
  | PyFloat (r : R)
  | PyStr (s : string)
  | PyArray1 (w : list R)
  | PyArray2 (a : array2 R).

(** ** Collaborators

    What the class calls but does not define.  [spectrogram] is called with
    [power=None, mel_filters=None, mel_floor=None] only, so it returns the
    complex STFT of shape [(frequency bins, frames)]; its arguments here are
    [waveform window frame_length hop_length fft_length center].  [pad] is
    [SequenceFeatureExtractor.pad] followed by [.get("input_features")],
    with arguments [input_features padding max_length truncation
    pad_to_multiple_of] and [return_attention_mask=False].
    [standard_normal g n] draws [n] samples and returns the advanced
    generator; [default_rng] builds a generator from fresh OS entropy. *)

Class Collaborators : Type := {
  Generator : Type;
  Entropy : Type;
  default_rng : Entropy → Generator * Entropy;
  standard_normal : Generator → nat → list R * Generator;
  optimal_fft_length : Z → Z;
  window_function : Z → string → bool → result (list R);
  mel_filter_bank : Z → Z → R → R → Z → string → string → result (array2 R);
  spectrogram : list R → list R → Z → Z → Z → bool → result (array2 complex);
  pad : list (list R) → padding_arg → Z → bool → option Z → result (list (list R));
  repr : UnivNetFeatureExtractor → string
}.

(** Arguments of [__init__], and their defaults. *)
Record init_args : Type := {
  i_feature_size : Z;
  i_sampling_rate : Z;
  i_padding_value : R;
  i_do_normalize : bool;
  i_num_mel_bins : Z;
  i_hop_length : Z;
  i_win_length : Z;
  i_win_function : string;
  i_filter_length : option Z;
  i_max_length_s : Z;
  i_fmin : R;
  i_fmax : option R;
  i_mel_floor : R;
  i_center : bool;
  i_compression_factor : R;
  i_compression_clip_val : R;
  i_normalize_min : R;
  i_normalize_max : R;
  i_model_in_channels : Z;
  i_pad_end_length : Z;
  i_spectrogram_zero : R
}.

Definition default_init_args : init_args := {|
  i_feature_size := 1;
  i_sampling_rate := 24000;
  i_padding_value := 0.0;
  i_do_normalize := false;
  i_num_mel_bins := 100;
  i_hop_length := 256;
  i_win_length := 1024;
  i_win_function := "hann_window";
  i_filter_length := Some 1024;
  i_max_length_s := 10;
  i_fmin := 0.0;
  i_fmax := None;
  i_mel_floor := 1e-9;
  i_center := false;
  i_compression_factor := 1.0;
  i_compression_clip_val := 1e-5;
  i_normalize_min := -11.512925148010254;
  i_normalize_max := 2.3143386840820312;
  i_model_in_channels := 64;
  i_pad_end_length := 10;
  i_spectrogram_zero := -11.5129
|}.

Section Extractor.
Context `{Collaborators}.

Definition __init__ (a : init_args) : result UnivNetFeatureExtractor :=
  let fmax :=
    match i_fmax a with
    | None => (IZR (i_sampling_rate a) / 2)%R
    | Some f => f
    end in
  let n_fft :=
    match i_filter_length a with
    | None => optimal_fft_length (i_win_length a)
    | Some n => n
    end in
  let n_freqs := n_fft `div` 2 + 1 in
  try window ← window_function (i_win_length a) (i_win_function a) true;
  try mel_filters ←
    mel_filter_bank n_freqs (i_num_mel_bins a) (i_fmin a) fmax
      (i_sampling_rate a) "slaney" "slaney";
  Ok {|
    feature_size := i_feature_size a;
    sampling_rate := i_sampling_rate a;
    padding_value := i_padding_value a;
    do_normalize := i_do_normalize a;
    num_mel_bins := i_num_mel_bins a;
    hop_length := i_hop_length a;
    win_length := i_win_length a;
    win_function := i_win_function a;
    filter_length := i_filter_length a;
    fmin := i_fmin a;
    fmax := fmax;
    mel_floor := i_mel_floor a;
    max_length_s := i_max_length_s a;
    num_max_samples := i_max_length_s a * i_sampling_rate a;
    n_fft := n_fft;
    n_freqs := n_freqs;
    window := window;
    mel_filters := mel_filters;
    center := i_center a;
    compression_factor := i_compression_factor a;
    compression_clip_val := i_compression_clip_val a;
    normalize_min := i_normalize_min a;
    normalize_max := i_normalize_max a;
    model_in_channels := i_model_in_channels a;
    pad_end_length := i_pad_end_length a;
    spectrogram_zero := i_spectrogram_zero a
  |}.

Variable self : UnivNetFeatureExtractor.

(** The four scalar maps; on an array they act entry by entry ([amap]). *)
Definition dynamic_range_compression (x : R) : R :=
  ln (Rmax x (compression_clip_val self) * compression_factor self).

Definition dynamic_range_decompression (x : R) : R :=
  (exp x / compression_factor self)%R.

Definition normalize (x : R) : R :=
  (2 * ((x - normalize_min self) / (normalize_max self - normalize_min self)) - 1)%R.

Definition denormalize (x : R) : R :=
  (normalize_min self + (normalize_max self - normalize_min self) * ((x + 1) / 2))%R.

(** [int((self.n_fft - self.hop_length) / 2)]: true division, then
    truncation towards zero. *)
Definition reflect_pad_amount : Z := (n_fft self - hop_length self) `quot` 2.

Definition amplitude (c : complex) : R :=
  sqrt (re c ^ 2 + im c ^ 2 + mel_floor self).

Definition mel_spectrogram (waveform : list R) : result (array2 R) :=
  try waveform ← np_pad_reflect waveform reflect_pad_amount reflect_pad_amount;
  try complex_spectrogram ←
    spectrogram waveform (window self) (n_fft self) (hop_length self)
      (n_fft self) (center self);
  let amplitude_spectrogram := amap amplitude complex_spectrogram in
  try mel_spectrogram ←
    np_matmul (transpose (mel_filters self)) amplitude_spectrogram;
  let log_mel_spectrogram := amap dynamic_range_compression mel_spectrogram in
  Ok (transpose log_mel_spectrogram).

Definition pad_spectrogram_end (spectrogram : array2 R)
    (pad_length : option Z) (spectrogram_zero_arg : option R) : result (array2 R) :=
  let pad_length := default (pad_end_length self) pad_length in
  let spectrogram_zero := default (spectrogram_zero self) spectrogram_zero_arg in
  try padding_zeros ← np_full_float32 pad_length (shape1 spectrogram) spectrogram_zero;
  np_concatenate spectrogram padding_zeros.

(** *** Effects *)

(** [generator_obj] is the [np.random.Generator] the caller passed as
    [generator] ([None] when the argument is [None]); drawing from it
    mutates it.  [os_entropy] is what [np.random.default_rng()] seeds
    itself from.  [warnings] collects [logger.warning] messages, latest
    first. *)
Record State : Type := {
  generator_obj : option Generator;
  os_entropy : Entropy;
  warnings : list string
}.

Definition M (A : Type) : Type := State → result A * State.

Definition mret {A} (a : A) : M A := λ st, (Ok a, st).

Definition mbind {A B} (m : M A) (k : A → M B) : M B := λ st,
  match m st with
  | (Ok a, st') => k a st'
  | (Raise e, st') => (Raise e, st')
  end.

Definition lift {A} (r : result A) : M A := λ st, (r, st).

Definition warn (msg : string) : M unit := λ st,
  (Ok (), {| generator_obj := generator_obj st;
             os_entropy := os_entropy st;
             warnings := msg :: warnings st |}).

Fixpoint mmap {A B} (f : A → M B) (l : list A) : M (list B) :=
  match l with
  | [] => mret []
  | x :: l' => mbind (f x) (λ y, mbind (mmap f l') (λ ys, mret (y :: ys)))
  end.

Definition noise_array (n m : nat) (samples : list R) : array2 R :=
  tabulate n m (λ i j, nth (i * m + j) samples 0%R).

(** [generator.standard_normal((n, m), dtype=np.float32)] *)
Definition standard_normal_array (generator : Generator) (n : nat) (m : Z)
    : result (array2 R) * Generator :=
  if m <? 0 then (Raise (ValueError "negative dimensions are not allowed"), generator)
  else
    let '(samples, generator') := standard_normal generator (n * Z.to_nat m) in
    (Ok (noise_array n (Z.to_nat m) samples), generator').

(** With a generator of the caller the draw advances that object; without
    one, [np.random.default_rng()] consumes OS entropy and the local
    generator is dropped on return. *)
Definition generate_noise (noise_length : nat) (model_in_channels_arg : option Z)
    : M (array2 R) := λ st,
  let model_in_channels := default (model_in_channels self) model_in_channels_arg in
  match generator_obj st with
  | Some generator =>
      let '(noise, generator') :=
        standard_normal_array generator noise_length model_in_channels in
      (noise, {| generator_obj := Some generator';
                 os_entropy := os_entropy st;
                 warnings := warnings st |})
  | None =>
      let '(generator, entropy) := default_rng (os_entropy st) in
      (fst (standard_normal_array generator noise_length model_in_channels),
       {| generator_obj := None; os_entropy := entropy; warnings := warnings st |})
  end.

(** *** [__call__] *)

Definition sampling_rate_error (received : Z) : string :=
  "The model corresponding to this feature extractor: UnivNetFeatureExtractor was trained using a"
  +:+ " sampling rate of " +:+ pretty (sampling_rate self)
  +:+ ". Please make sure that the provided `raw_speech` input"
  +:+ " was sampled with " +:+ pretty (sampling_rate self)
  +:+ " and not " +:+ pretty received +:+ ".".

Definition sampling_rate_warning : string :=
  "It is strongly recommended to pass the `sampling_rate` argument to this function. "
  +:+ "Failing to do so can result in silent errors that might be hard to debug.".

Definition mono_error : string :=
  "Only mono-channel audio is supported for input to " +:+ repr self.

Definition check_sampling_rate (sampling_rate_arg : option Z) : M unit :=
  match sampling_rate_arg with
  | Some sr =>
      if bool_decide (sr ≠ sampling_rate self)
      then lift (Raise (ValueError (sampling_rate_error sr)))
      else mret ()
  | None => warn sampling_rate_warning
  end.

Definition is_ndarray (raw : raw_speech_t) : bool :=
  match raw with
  | NdArray1 _ | NdArray2 _ | NdArrayN _ _ _ _ _ => true
  | ListOfFloat _ | ListOfSeq _ => false
  end.

(** [len(raw_speech.shape)] of an array. *)
Definition ndim (raw : raw_speech_t) : nat :=
  match raw with
  | NdArray1 _ => 1
  | NdArray2 _ => 2
  | NdArrayN _ _ _ ds _ => 3 + length ds
  | ListOfFloat _ | ListOfSeq _ => 0
  end.

(** [isinstance(raw_speech[0], (np.ndarray, tuple, list))] on a list. *)
Definition first_is_sequence (raw : raw_speech_t) : result bool :=
  match raw with
  | ListOfFloat [] | ListOfSeq [] => Raise (IndexError "list index out of range")
  | ListOfFloat (_ :: _) => Ok false
  | ListOfSeq (_ :: _) => Ok true
  | _ => Ok false
  end.

(** [[np.asarray(speech, dtype=np.float32) for speech in raw_speech]] *)
Definition speech_items (raw : raw_speech_t) : list (list R) :=
  match raw with
  | NdArray2 a =>
      map (λ i, map (λ j, np_float32 (get a i j)) (seq 0 (shape1 a))) (seq 0 (shape0 a))
  | ListOfSeq l => map (map np_float32) l
  | _ => []
  end.

(** [np.asarray(raw_speech, dtype=np.float32)] of one unbatched waveform. *)
Definition speech_array (raw : raw_speech_t) : list R :=
  match raw with
  | NdArray1 w | ListOfFloat w => map np_float32 w
  | _ => []
  end.

(** Modelled from the spec: [BatchFeature.convert_to_tensors] is not under
    src/.  Section 4.1: "If an explicit tensor representation was
    requested, the whole structure is converted to that representation;
    otherwise arrays are returned in their native per-item form (allowing
    heterogeneous lengths when unpadded)".  The conversion keeps every
    entry and records the framework; one tensor per key needs the items
    of a key to agree in shape. *)
Definition same_shapes (l : list (array2 R)) : bool :=
  match l with
  | [] => true
  | a :: l' =>
      forallb (λ b, (shape0 b =? shape0 a)%nat && (shape1 b =? shape1 a)%nat) l'
  end.

Definition convert_to_tensors (b : BatchFeature) (t : TensorType) : result BatchFeature :=
  if same_shapes (bf_spectrogram b) && same_shapes (default [] (bf_noise_sequence b))
  then Ok {| bf_spectrogram := bf_spectrogram b;
             bf_noise_sequence := bf_noise_sequence b;
             bf_tensor_type := Some t |}
  else Raise (ValueError "Unable to create tensor, you should probably activate padding").

(** Everything after the sampling-rate check. *)
Definition featurize (a : call_args) : M BatchFeature :=
  let do_normalize := default (do_normalize self) (a_do_normalize a) in
  let raw_speech := a_raw_speech a in
  let is_batched_numpy := is_ndarray raw_speech && (1 <? ndim raw_speech)%nat in
  if is_batched_numpy && (2 <? ndim raw_speech)%nat
  then lift (Raise (ValueError mono_error))
  else
    mbind (lift (if is_batched_numpy then Ok true
                 else if is_ndarray raw_speech then Ok false
                 else first_is_sequence raw_speech)) (λ is_batched,
    let raw_speech :=
      if is_batched then speech_items raw_speech else [speech_array raw_speech] in
    mbind (lift (pad raw_speech (a_padding a)
                   (default (num_max_samples self) (a_max_length a))
                   (a_truncation a) (a_pad_to_multiple_of a))) (λ input_features,
    mbind (lift (rmap mel_spectrogram input_features)) (λ mel_spectrograms,
    (* [input_features[0]] is read to choose between [np.asarray(mel,
       dtype=np.float32)] and [mel.astype(np.float32)] *)
    mbind (lift (match input_features with
                 | [] => Raise (IndexError "list index out of range")
                 | _ :: _ => Ok (map (amap np_float32) mel_spectrograms)
                 end)) (λ spectrograms,
    mbind (lift (if a_pad_end a
                 then rmap (λ spectrogram,
                              pad_spectrogram_end spectrogram (a_pad_length a)
                                (a_spectrogram_zero a)) spectrograms
                 else Ok spectrograms)) (λ spectrograms,
    mbind (if a_return_noise a
           then mbind (mmap (λ spectrogram,
                               generate_noise (shape0 spectrogram)
                                 (a_model_in_channels a)) spectrograms)
                      (λ noise, mret (Some noise))
           else mret None) (λ noise_sequence,
    let spectrograms :=
      if do_normalize then map (amap normalize) spectrograms else spectrograms in
    let batched_speech :=
      {| bf_spectrogram := spectrograms;
         bf_noise_sequence := noise_sequence;
         bf_tensor_type := None |} in
    match a_return_tensors a with
    | Some t => lift (convert_to_tensors batched_speech t)
    | None => mret batched_speech
    end)))))).

Definition __call__ (a : call_args) : M BatchFeature :=
  mbind (check_sampling_rate (a_sampling_rate a)) (λ _, featurize a).

(** *** [to_dict] *)

(** Modelled from the spec: the superclass [to_dict] is not under src/.
    Section 6: the serialized form is "a key-value mapping of constructor
    parameters"; before the subclass removes the derived fields it is the
    mapping of the instance's attributes. *)
Definition super_to_dict : gmap string pyval :=
  list_to_map [
    ("feature_size", PyInt (feature_size self));
    ("sampling_rate", PyInt (sampling_rate self));
    ("padding_value", PyFloat (padding_value self));
    ("do_normalize", PyBool (do_normalize self));
    ("num_mel_bins", PyInt (num_mel_bins self));
    ("hop_length", PyInt (hop_length self));
    ("win_length", PyInt (win_length self));
    ("win_function", PyStr (win_function self));
    ("filter_length", from_option PyInt PyNone (filter_length self));
    ("fmin", PyFloat (fmin self));
    ("fmax", PyFloat (fmax self));
    ("mel_floor", PyFloat (mel_floor self));
    ("max_length_s", PyInt (max_length_s self));
    ("num_max_samples", PyInt (num_max_samples self));
    ("n_fft", PyInt (n_fft self));
    ("n_freqs", PyInt (n_freqs self));
    ("window", PyArray1 (window self));
    ("mel_filters", PyArray2 (mel_filters self));
    ("center", PyBool (center self));
    ("compression_factor", PyFloat (compression_factor self));
    ("compression_clip_val", PyFloat (compression_clip_val self));
    ("normalize_min", PyFloat (normalize_min self));
    ("normalize_max", PyFloat (normalize_max self));
    ("model_in_channels", PyInt (model_in_channels self));
    ("pad_end_length", PyInt (pad_end_length self));
    ("spectrogram_zero", PyFloat (spectrogram_zero self))
  ].

Definition names : list string :=
  ["window"; "mel_filters"; "n_fft"; "n_freqs"; "num_max_samples"].

(** The loop of [to_dict], from any [output]. *)
Definition drop_derived (output : gmap string pyval) : gmap string pyval :=
  foldl (λ output name,
           if bool_decide (is_Some (output !! name)) then delete name output
           else output)
    output names.

Definition to_dict : gmap string pyval := drop_derived super_to_dict.
End Extractor.

(** ** A reference instance of the collaborators

    A small executable instance, used to run the model on concrete inputs:
    a framed, windowed one-sided DFT for [spectrogram], right-padding with
    zeros for [pad], a counter for the random generator.  The filter bank
    and the sampler have the shapes of the utilities they stand for and
    simplified entries; every theorem below holds for all instances. *)

Module Reference.
Definition optimal_fft_length (window_length : Z) : Z :=
  2 ^ Z.log2_up window_length.

Definition hann (n : Z) : list R :=
  map (λ k, 0.5 - 0.5 * cos (2 * PI * INR k / IZR n))%R (seq 0 (Z.to_nat n)).

Definition window_function (window_length : Z) (name : string) (periodic : bool)
    : result (list R) :=
  if (name =? "hann")%string || (name =? "hann_window")%string then
    Ok (if periodic then hann window_length
        else firstn (Z.to_nat window_length) (hann (window_length - 1) ++ [0%R]))
  else if (name =? "boxcar")%string then Ok (repeat 1%R (Z.to_nat window_length))
  else Raise (ValueError ("Unknown window function: " +:+ name)).

(** Filter [m] averages the bins congruent to [m] modulo the number of
    filters. *)
Definition mel_filter_bank (num_frequency_bins num_mel_filters : Z)
    (min_frequency max_frequency : R) (sampling_rate : Z) (norm mel_scale : string)
    : result (array2 R) :=
  if (num_frequency_bins <? 0) || (num_mel_filters <? 0)
  then Raise (ValueError "negative dimensions are not allowed")
  else Ok (tabulate (Z.to_nat num_frequency_bins) (Z.to_nat num_mel_filters)
             (λ k m, if (k mod Z.to_nat num_mel_filters =? m)%nat then 1%R else 0%R)).

(** [1 + floor((size - frame_length) / hop_length)] frames. *)
Definition num_frames (size : nat) (frame_length hop_length : Z) (center : bool) : nat :=
  let size := Z.of_nat size + (if center then 2 * (frame_length `div` 2) else 0) in
  Z.to_nat (1 + (size - frame_length) `div` hop_length).

Definition dft_bin (frame : list R) (fft_length : Z) (k : nat) : complex :=
  let angle n := (2 * PI * INR k * INR n / IZR fft_length)%R in
  Complex
    (sum_range (length frame) (λ n, nth n frame 0 * cos (angle n))%R)
    (- sum_range (length frame) (λ n, nth n frame 0 * sin (angle n)))%R.

Definition spectrogram (waveform window : list R)
    (frame_length hop_length fft_length : Z) (center : bool)
    : result (array2 complex) :=
  if (hop_length <=? 0) || (frame_length <=? 0) || (fft_length <? frame_length)
  then Raise (ValueError "invalid frame, hop or FFT length")
  else
    try padded ←
      (if center
       then np_pad_reflect waveform (frame_length `div` 2) (frame_length `div` 2)
       else Ok waveform);
    if Z.of_nat (length padded) <? frame_length
    then Raise (ValueError "negative dimensions are not allowed")
    else
      let frame t :=
        map (λ n, nth (t * Z.to_nat hop_length + n) padded 0 * nth n window 0)%R
          (seq 0 (Z.to_nat frame_length)) in
      Ok (tabulate (Z.to_nat (fft_length `div` 2 + 1))
            (num_frames (length waveform) frame_length hop_length center)
            (λ k t, dft_bin (frame t) fft_length k)).

(** Truncation to [max_length], then right-padding with zeros to the
    longest item or to [max_length]. *)
Definition pad (input_features : list (list R)) (padding : padding_arg)
    (max_length : Z) (truncation : bool) (pad_to_multiple_of : option Z)
    : result (list (list R)) :=
  let truncated :=
    if truncation then map (firstn (Z.to_nat max_length)) input_features
    else input_features in
  let longest := foldr (λ w n, Nat.max (length w) n) 0%nat truncated in
  let pad_to n := map (λ w, w ++ repeat 0%R (n - length w)) truncated in
  match padding with
  | PaddingBool false => Ok truncated
  | PaddingBool true => Ok (pad_to longest)
  | PaddingStr s =>
      if (s =? "do_not_pad")%string then Ok truncated
      else if (s =? "longest")%string then Ok (pad_to longest)
      else if (s =? "max_length")%string then Ok (pad_to (Z.to_nat max_length))
      else Raise (ValueError (s +:+ " is not a valid PaddingStrategy"))
  end.

Definition standard_normal (g : Z) (n : nat) : list R * Z :=
  (map (λ i, IZR ((g + Z.of_nat i) `mod` 5 - 2) / 2)%R (seq 0 n), g + Z.of_nat n).

Definition repr (self : UnivNetFeatureExtractor) : string :=
  "UnivNetFeatureExtractor {...}".
End Reference.

Definition reference : Collaborators := {|
  Generator := Z;
  Entropy := Z;
  default_rng := λ e, (e, e + 1);
  standard_normal := Reference.standard_normal;
  optimal_fft_length := Reference.optimal_fft_length;
  window_function := Reference.window_function;
  mel_filter_bank := Reference.mel_filter_bank;
  spectrogram := Reference.spectrogram;
  pad := Reference.pad;
  repr := Reference.repr
|}.

(** A small extractor: FFT length 4, hop 2, two mel bins, the default
    compression and normalization constants. *)
Definition small_init_args : init_args := {|
  i_feature_size := 1;
  i_sampling_rate := 24000;
  i_padding_value := 0.0;
  i_do_normalize := false;
  i_num_mel_bins := 2;
  i_hop_length := 2;
  i_win_length := 4;
  i_win_function := "hann_window";
  i_filter_length := Some 4;
  i_max_length_s := 10;
  i_fmin := 0.0;
  i_fmax := None;
  i_mel_floor := 1e-9;
  i_center := false;
  i_compression_factor := 1.0;
  i_compression_clip_val := 1e-5;
  i_normalize_min := -11.512925148010254;
  i_normalize_max := 2.3143386840820312;
  i_model_in_channels := 64;
  i_pad_end_length := 10;
  i_spectrogram_zero := -11.5129
|}.

Definition small_extractor : UnivNetFeatureExtractor := {|
  feature_size := 1;
  sampling_rate := 24000;
  padding_value := 0.0;
  do_normalize := false;
  num_mel_bins := 2;
  hop_length := 2;
  win_length := 4;
  win_function := "hann_window";
  filter_length := Some 4;
  fmin := 0.0;
  fmax := 24000 / 2;
  mel_floor := 1e-9;
  max_length_s := 10;
  num_max_samples := 240000;
  n_fft := 4;
  n_freqs := 3;
  window := Reference.hann 4;
  mel_filters := tabulate 3 2 (λ k m, if (k mod 2 =? m)%nat then 1%R else 0%R);
  center := false;
  compression_factor := 1.0;
  compression_clip_val := 1e-5;
  normalize_min := -11.512925148010254;
  normalize_max := 2.3143386840820312;
  model_in_channels := 64;
  pad_end_length := 10;
  spectrogram_zero := -11.5129
|}.

(** ** The normalization in IEEE binary64

    [normalize] and [denormalize] as Python evaluates them on a [float]:
    the same expressions over binary64 numbers with round-to-nearest, used
    to run the two maps at the default bounds. *)

Module Binary64.
Import PrimFloat.

Definition normalize (normalize_min normalize_max x : float) : float :=
  (2 * ((x - normalize_min) / (normalize_max - normalize_min)) - 1)%float.

Definition denormalize (normalize_min normalize_max x : float) : float :=
  (normalize_min + (normalize_max - normalize_min) * ((x + 1) / 2))%float.

Definition default_min : float := (-11.512925148010254)%float.
Definition default_max : float := (2.3143386840820312)%float.
End Binary64.

(** ** Statements of the specification *)

(** Entry [(t, m)] of the log-mel spectrogram as the specification words it,
    from the complex STFT [cs] of the padded waveform: the magnitudes
    [sqrt(re^2 + im^2 + mel_floor)] of frame [t], projected on mel filter
    [m], clipped from below, scaled and passed through the natural log. *)
Definition spec_log_mel (self : UnivNetFeatureExtractor) (cs : array2 complex)
    (t m : nat) : R :=
  ln (Rmax
        (sum_range (shape0 cs)
           (λ k, get (mel_filters self) k m
                 * sqrt (re (get cs k t) ^ 2 + im (get cs k t) ^ 2 + mel_floor self))%R)
        (compression_clip_val self)
      * compression_factor self).

(** The contract of the STFT primitive on which the frame count rests
    (section 3): the number of frames is a function of the length of the
    waveform it is given, the frame, hop and FFT lengths and the centering
    flag. *)
Definition frame_count_contract `{Collaborators}
    (frames : nat → Z → Z → Z → bool → nat) : Prop :=
  ∀ waveform window frame_length hop_length fft_length center cs,
    spectrogram waveform window frame_length hop_length fft_length center = Ok cs →
    shape1 cs = frames (length waveform) frame_length hop_length fft_length center.


(** [s] occurs in [t]. *)
Definition occurs_in (s t : string) : Prop := ∃ p q, t = p +:+ s +:+ q.

(** States and calls of the reference instance. *)

Definition initial_state : @State reference :=
  @Build_State reference None 0 [].

Definition seeded_state : @State reference :=
  @Build_State reference (Some 7) 0 [].

(** Two waveforms of 6 and 8 samples, no sequence padding, two frames of
    end-padding, noise with three channels. *)
Definition batch_call : call_args := {|
  a_raw_speech := ListOfSeq [[1; 2; 3; 4; 5; 6]; [1; 2; 3; 4; 5; 6; 7; 8]]%R;
  a_sampling_rate := Some 24000;
  a_padding := PaddingBool false;
  a_max_length := None;
  a_truncation := true;
  a_pad_to_multiple_of := None;
  a_return_noise := true;
  a_model_in_channels := Some 3;
  a_pad_end := true;
  a_pad_length := Some 2;
  a_spectrogram_zero := None;
  a_do_normalize := None;
  a_return_tensors := None
|}.

(** One waveform, end-padded and normalized. *)
Definition normalized_call : call_args := {|
  a_raw_speech := NdArray1 [1; 2; 3; 4; 5; 6]%R;
  a_sampling_rate := Some 24000;
  a_padding := PaddingBool true;
  a_max_length := None;
  a_truncation := true;
  a_pad_to_multiple_of := None;
  a_return_noise := false;
  a_model_in_channels := None;
  a_pad_end := true;
  a_pad_length := Some 2;
  a_spectrogram_zero := Some (-11.5129)%R;
  a_do_normalize := Some true;
  a_return_tensors := None
|}.

(** An array of shape (1, 2, 3), with or without a sampling rate. *)
Definition stereo_call (sampling_rate : option Z) : call_args := {|
  a_raw_speech := NdArrayN 1 2 3 [] [1; 2; 3; 4; 5; 6]%R;
  a_sampling_rate := sampling_rate;
  a_padding := PaddingBool true;
  a_max_length := None;
  a_truncation := true;
  a_pad_to_multiple_of := None;
  a_return_noise := true;
  a_model_in_channels := None;
  a_pad_end := false;
  a_pad_length := None;
  a_spectrogram_zero := None;
  a_do_normalize := None;
  a_return_tensors := None
|}.

(** The same constructor arguments with the maximum frequency spelled out. *)
Definition nyquist_init_args : init_args := {|
  i_feature_size := 1;
  i_sampling_rate := 24000;
  i_padding_value := 0.0;
  i_do_normalize := false;
  i_num_mel_bins := 2;
  i_hop_length := 2;
  i_win_length := 4;
  i_win_function := "hann_window";
  i_filter_length := Some 4;
  i_max_length_s := 10;
  i_fmin := 0.0;
  i_fmax := Some (24000 / 2)%R;
  i_mel_floor := 1e-9;
  i_center := false;
  i_compression_factor := 1.0;
  i_compression_clip_val := 1e-5;
  i_normalize_min := -11.512925148010254;
  i_normalize_max := 2.3143386840820312;
  i_model_in_channels := 64;
  i_pad_end_length := 10;
  i_spectrogram_zero := -11.5129
|}.

(** ** Stages of [__call__]

    [featurize] is a pure computation of the spectrograms, one effectful
    step (the noise), and a pure completion.  The two pure parts are named
    here; [featurize_stages] below relates them to [featurize]. *)

Definition shape {A} (a : array2 A) : nat * nat := (shape0 a, shape1 a).

Definition rfmap {A B} (f : A → B) (r : result A) : result B :=
  match r with
  | Ok a => Ok (f a)
  | Raise e => Raise e
  end.

(** What a returned batch shows apart from the noise samples: the
    spectrograms, the shapes of the noise arrays, the tensor framework. *)
Definition noise_free (b : BatchFeature)
    : list (array2 R) * option (list (nat * nat)) * option TensorType :=
  (bf_spectrogram b, option_map (map shape) (bf_noise_sequence b), bf_tensor_type b).

Definition with_warning `{Collaborators} (msg : string) (st : State) : State :=
  {| generator_obj := generator_obj st;
     os_entropy := os_entropy st;
     warnings := msg :: warnings st |}.

Section Stages.
Context `{Collaborators}.
Variable self : UnivNetFeatureExtractor.
Variable a : call_args.

(** The waveforms handed to [mel_spectrogram]: shape validation, batching
    and [pad]. *)
Definition padded_inputs : result (list (list R)) :=
  let raw_speech := a_raw_speech a in
  let is_batched_numpy := is_ndarray raw_speech && (1 <? ndim raw_speech)%nat in
  if is_batched_numpy && (2 <? ndim raw_speech)%nat
  then Raise (ValueError (mono_error self))
  else
    try is_batched ←
      (if is_batched_numpy then Ok true
       else if is_ndarray raw_speech then Ok false
       else first_is_sequence raw_speech);
    pad (if is_batched then speech_items raw_speech else [speech_array raw_speech])
      (a_padding a) (default (num_max_samples self) (a_max_length a))
      (a_truncation a) (a_pad_to_multiple_of a).

(** The spectrograms before end-padding: single-precision conversions of
    what [mel_spectrogram] returns. *)
Definition unpadded_spectrograms : result (list (array2 R)) :=
  try input_features ← padded_inputs;
  try mel_spectrograms ← rmap (mel_spectrogram self) input_features;
  match input_features with
  | [] => Raise (IndexError "list index out of range")
  | _ :: _ => Ok (map (amap np_float32) mel_spectrograms)
  end.

(** The spectrograms the noise is generated for. *)
Definition padded_spectrograms : result (list (array2 R)) :=
  try spectrograms ← unpadded_spectrograms;
  if a_pad_end a
  then rmap (λ spectrogram,
               pad_spectrogram_end self spectrogram (a_pad_length a)
                 (a_spectrogram_zero a)) spectrograms
  else Ok spectrograms.

(** Normalization and tensor conversion. *)
Definition complete (spectrograms : list (array2 R))
    (noise_sequence : option (list (array2 R))) : result BatchFeature :=
  let spectrograms :=
    if default (do_normalize self) (a_do_normalize a)
    then map (amap (normalize self)) spectrograms
    else spectrograms in
  let batched_speech :=
    {| bf_spectrogram := spectrograms;
       bf_noise_sequence := noise_sequence;
       bf_tensor_type := None |} in
  match a_return_tensors a with
  | Some t => convert_to_tensors batched_speech t
  | None => Ok batched_speech
  end.

(** The noise arrays drawn from a generator [g] for a list of spectrograms,
    and the generator afterwards. *)
Fixpoint noise_from (g : Generator) (spectrograms : list (array2 R))
    : result (list (array2 R)) * Generator :=
  match spectrograms with
  | [] => (Ok [], g)
  | spectrogram :: rest =>
      match standard_normal_array g (shape0 spectrogram)
              (default (model_in_channels self) (a_model_in_channels a)) with
      | (Ok noise, g') =>
          match noise_from g' rest with
          | (Ok noises, g'') => (Ok (noise :: noises), g'')
          | (Raise e, g'') => (Raise e, g'')
          end
      | (Raise e, g') => (Raise e, g')
      end
  end.

(** The shapes of the noise arrays generated for a list of spectrograms. *)
Definition noise_shapes (spectrograms : list (array2 R)) : result (list (nat * nat)) :=
  let channels := default (model_in_channels self) (a_model_in_channels a) in
  match spectrograms with
  | [] => Ok []
  | _ :: _ =>
      if channels <? 0 then Raise (ValueError "negative dimensions are not allowed")
      else Ok (map (λ spectrogram, (shape0 spectrogram, Z.to_nat channels)) spectrograms)
  end.
End Stages.

(** One waveform of six samples, with noise and end-padding of the given
    channel count and length. *)
Definition sized_call (channels pad_length : option Z) : call_args := {|
  a_raw_speech := NdArray1 [1; 2; 3; 4; 5; 6]%R;
  a_sampling_rate := Some 24000;
  a_padding := PaddingBool false;
  a_max_length := None;
  a_truncation := true;
  a_pad_to_multiple_of := None;
  a_return_noise := true;
  a_model_in_channels := channels;
  a_pad_end := true;
  a_pad_length := pad_length;
  a_spectrogram_zero := None;
  a_do_normalize := None;
  a_return_tensors := None
|}.

(** The same waveform, no end-padding, no normalization, no noise. *)
Definition plain_call : call_args := {|
  a_raw_speech := NdArray1 [1; 2; 3; 4; 5; 6]%R;
  a_sampling_rate := Some 24000;
  a_padding := PaddingBool false;
  a_max_length := None;
  a_truncation := true;
  a_pad_to_multiple_of := None;
  a_return_noise := false;
  a_model_in_channels := None;
  a_pad_end := false;
  a_pad_length := None;
  a_spectrogram_zero := None;
  a_do_normalize := Some false;
  a_return_tensors := None
|}.

(** ** Variants of a call *)

Definition with_raw_speech (a : call_args) (raw_speech : raw_speech_t) : call_args := {|
  a_raw_speech := raw_speech;
  a_sampling_rate := a_sampling_rate a;
  a_padding := a_padding a;
  a_max_length := a_max_length a;
  a_truncation := a_truncation a;
  a_pad_to_multiple_of := a_pad_to_multiple_of a;
  a_return_noise := a_return_noise a;
  a_model_in_channels := a_model_in_channels a;
  a_pad_end := a_pad_end a;
  a_pad_length := a_pad_length a;
  a_spectrogram_zero := a_spectrogram_zero a;
  a_do_normalize := a_do_normalize a;
  a_return_tensors := a_return_tensors a
|}.

Definition with_sampling_rate (a : call_args) (sampling_rate : option Z) : call_args := {|
  a_raw_speech := a_raw_speech a;
  a_sampling_rate := sampling_rate;
  a_padding := a_padding a;
  a_max_length := a_max_length a;
  a_truncation := a_truncation a;
  a_pad_to_multiple_of := a_pad_to_multiple_of a;
  a_return_noise := a_return_noise a;
  a_model_in_channels := a_model_in_channels a;
  a_pad_end := a_pad_end a;
  a_pad_length := a_pad_length a;
  a_spectrogram_zero := a_spectrogram_zero a;
  a_do_normalize := a_do_normalize a;
  a_return_tensors := a_return_tensors a
|}.

Definition with_do_normalize (a : call_args) (do_normalize : option bool) : call_args := {|
  a_raw_speech := a_raw_speech a;
  a_sampling_rate := a_sampling_rate a;
  a_padding := a_padding a;
  a_max_length := a_max_length a;
  a_truncation := a_truncation a;
  a_pad_to_multiple_of := a_pad_to_multiple_of a;
  a_return_noise := a_return_noise a;
  a_model_in_channels := a_model_in_channels a;
  a_pad_end := a_pad_end a;
  a_pad_length := a_pad_length a;
  a_spectrogram_zero := a_spectrogram_zero a;
  a_do_normalize := do_normalize;
  a_return_tensors := a_return_tensors a
|}.

(** ** The import structure of the ImageBind package

    Source: [src/transformers/models/imagebind/__init__.py].  The module
    builds the dictionary [_import_structure] (submodule name to exported
    object names) and, under [TYPE_CHECKING], imports the same objects
    eagerly.  Which entries exist depends on four optional backends.  Each
    block [try: if not is_x_available(): raise ... except: pass else: body]
    runs [body] exactly when the backend is available.  A lookup of a
    missing key ([KeyError]) is [None]. *)

Module ImageBind.

Record backends : Type := {
  is_tokenizers_available : bool;
  is_vision_available : bool;
  is_speech_available : bool;
  is_torch_available : bool
}.

(** [d[key].extend(items)] *)
Definition extend (key : string) (items : list string)
    (d : gmap string (list string)) : option (gmap string (list string)) :=
  match d !! key with
  | Some l => Some (<[key := l ++ items]> d)
  | None => None
  end.

Definition when_available (available : bool)
    (body : gmap string (list string) → option (gmap string (list string)))
    (d : gmap string (list string)) : option (gmap string (list string)) :=
  if available then body d else Some d.

Definition base_structure : gmap string (list string) :=
  list_to_map [
    ("configuration_imagebind",
     ["IMAGEBIND_PRETRAINED_CONFIG_ARCHIVE_MAP";
      "ImageBindAudioConfig";
      "ImageBindConfig";
      "ImageBindDepthConfig";
      "ImageBindImuConfig";
      "ImageBindOnnxConfig";
      "ImageBindTextConfig";
      "ImageBindThermalConfig";
      "ImageBindVisionConfig"]);
    ("feature_extraction_imagebind", ["ImageBindImuFeatureExtractor"]);
    ("processing_imagebind", ["ImageBindProcessor"]);
    ("tokenization_imagebind", ["ImageBindTokenizer"])
  ].

Definition modeling_names : list string :=
  ["IMAGEBIND_PRETRAINED_MODEL_ARCHIVE_LIST";
   "ImageBindAudioModel";
   "ImageBindAudioModelWithProjection";
   "ImageBindDepthModel";
   "ImageBindDepthModelWithProjection";
   "ImageBindImuModel";
   "ImageBindImuModelWithProjection";
   "ImageBindModel";
   "ImageBindPreTrainedModel";
   "ImageBindTextModel";
   "ImageBindTextModelWithProjection";
   "ImageBindThermalModel";
   "ImageBindThermalModelWithProjection";
   "ImageBindVisionModel";
   "ImageBindVisionModelWithProjection"].

Definition _import_structure (b : backends) : option (gmap string (list string)) :=
  match
    when_available (is_tokenizers_available b)
      (λ d, Some (<["tokenization_imagebind_fast" := ["ImageBindTokenizerFast"]]> d))
      base_structure
  with
  | None => None
  | Some d =>
      match
        when_available (is_vision_available b)
          (λ d,
             match extend "feature_extraction_imagebind" ["ImageBindFeatureExtractor"] d with
             | None => None
             | Some d =>
                 Some (<["image_processing_imagebind" :=
                           ["ImageBindImageProcessor";
                            "ImageBindDepthImageProcessor";
                            "ImageBindThermalImageProcessor"]]> d)
             end) d
      with
      | None => None
      | Some d =>
          match
            when_available (is_speech_available b)
              (extend "feature_extraction_imagebind" ["ImageBindAudioFeatureExtractor"]) d
          with
          | None => None
          | Some d =>
              when_available (is_torch_available b)
                (λ d, Some (<["modeling_imagebind" := modeling_names]> d)) d
          end
      end
  end.

(** The [from .module import name] statements of the [TYPE_CHECKING]
    branch, in order, as pairs [(module, name)]. *)
Definition type_checking_imports (b : backends) : list (string * string) :=
  map (pair "configuration_imagebind")
    ["IMAGEBIND_PRETRAINED_CONFIG_ARCHIVE_MAP";
     "ImageBindAudioConfig";
     "ImageBindConfig";
     "ImageBindDepthConfig";
     "ImageBindImuConfig";
     "ImageBindOnnxConfig";
     "ImageBindTextConfig";
     "ImageBindThermalConfig";
     "ImageBindVisionConfig"]
  ++ [("feature_extraction_imagebind", "ImageBindImuFeatureExtractor");
      ("processing_imagebind", "ImageBindProcessor");
      ("tokenization_imagebind", "ImageBindTokenizer")]
  ++ (if is_tokenizers_available b
      then [("tokenization_imagebind_fast", "ImageBindTokenizerFast")]
      else [])
  ++ (if is_vision_available b
      then [("feature_extraction_imagebind", "ImageBindFeatureExtractor");
            ("image_processing_imagebind", "ImageBindImageProcessor");
            ("image_processing_imagebind", "ImageBindDepthImageProcessor");
            ("image_processing_imagebind", "ImageBindThermalImageProcessor")]
      else [])
  ++ (if is_speech_available b
      then [("feature_extraction_imagebind", "ImageBindAudioFeatureExtractor")]
      else [])
  ++ (if is_torch_available b
      then map (pair "modeling_imagebind") modeling_names
      else []).

(** The pairs [(module, name)] a structure exports. *)
Definition exported (d : gmap string (list string)) : list (string * string) :=
  concat (map (λ entry, map (pair (fst entry)) (snd entry)) (map_to_list d)).

(** Both lists have the same elements. *)
Definition same_elements (l1 l2 : list (string * string)) : bool :=
  forallb (λ x, bool_decide (x ∈ l2)) l1 && forallb (λ x, bool_decide (x ∈ l1)) l2.

(** [b'] has every backend [b] has. *)
Definition backends_le (b b' : backends) : Prop :=
  (is_tokenizers_available b → is_tokenizers_available b')
  ∧ (is_vision_available b → is_vision_available b')
  ∧ (is_speech_available b → is_speech_available b')
  ∧ (is_torch_available b → is_torch_available b').
End ImageBind.

(** ** Properties *)

Example small_extractor_init : @__init__ reference small_init_args = Ok small_extractor.
Proof. reflexivity. Qed.

(** *** Single precision *)

Lemma ln_2_pos : (0 < ln 2)%R.
Proof. pose proof ln_lt_2. lra. Qed.

Lemma binary_exponent_eq (x : R) (e : Z) :
  (-126 <= e)%Z → (powerRZ 2 e <= Rabs x < powerRZ 2 (e + 1))%R → binary_exponent x = e.
Proof.
  intros He [Hlo Hhi]. unfold binary_exponent.
  assert (∀ k, ln (powerRZ 2 k) = (IZR k * ln 2)%R) as Hln.
  { intros k. rewrite <- (exp_ln 2) at 1 by lra.
    rewrite powerRZ_Rpower by (apply exp_pos).
    unfold Rpower. now rewrite !ln_exp. }
  assert (0 < powerRZ 2 e)%R as Hpos by (apply powerRZ_lt; lra).
  pose proof ln_2_pos as H2.
  rewrite (Zfloor_eq e); [lia|].
  split.
  - apply (Rmult_le_reg_r (ln 2)); [assumption|].
    unfold Rdiv. rewrite Rmult_assoc, Rinv_l, Rmult_1_r by lra.
    rewrite <- Hln.
    destruct Hlo as [Hlt | <-]; [left; now apply ln_increasing | right; reflexivity].
  - apply (Rmult_lt_reg_r (ln 2)); [assumption|].
    unfold Rdiv. rewrite Rmult_assoc, Rinv_l, Rmult_1_r by lra.
    rewrite <- plus_IZR, <- Hln. apply ln_increasing; lra.
Qed.

Lemma round_half_even_below (y : R) (n : Z) :
  (IZR n <= y < IZR n + 1 / 2)%R → round_half_even y = n.
Proof.
  intros Hy. unfold round_half_even.
  rewrite (Zfloor_eq n) by lra. simpl.
  destruct (Rlt_dec (y - IZR n) (1 / 2)); [reflexivity|lra].
Qed.

Lemma round_half_even_above (y : R) (n : Z) :
  (IZR n + 1 / 2 < y < IZR n + 1)%R → round_half_even y = n + 1.
Proof.
  intros Hy. unfold round_half_even.
  rewrite (Zfloor_eq n) by lra. simpl.
  destruct (Rlt_dec (y - IZR n) (1 / 2)); [lra|].
  destruct (Rlt_dec (1 / 2) (y - IZR n)); [reflexivity|lra].
Qed.

Lemma round_half_even_tie (n : Z) :
  round_half_even (IZR n + 1 / 2) = if Z.even n then n else n + 1.
Proof.
  unfold round_half_even.
  rewrite (Zfloor_eq n) by lra. simpl.
  destruct (Rlt_dec (IZR n + 1 / 2 - IZR n) (1 / 2)); [lra|].
  destruct (Rlt_dec (1 / 2) (IZR n + 1 / 2 - IZR n)); [lra|reflexivity].
Qed.

(** A number with a 24-bit significand [m] and an exponent in the normal
    range is its own single-precision conversion. *)
Lemma np_float32_representable (m e : Z) :
  (-126 <= e)%Z → (8388608 <= Z.abs m < 16777216)%Z →
  np_float32 (IZR m * powerRZ 2 (e - 23)) = (IZR m * powerRZ 2 (e - 23))%R.
Proof.
  intros He [Hlo Hhi].
  assert (0 < powerRZ 2 (e - 23))%R as Hq by (apply powerRZ_lt; lra).
  assert (powerRZ 2 e = 8388608 * powerRZ 2 (e - 23))%R as He0.
  { replace e with (23 + (e - 23)) at 1 by lia.
    rewrite powerRZ_add by lra. f_equal. simpl. lra. }
  assert (powerRZ 2 (e + 1) = 16777216 * powerRZ 2 (e - 23))%R as He1.
  { replace (e + 1) with (24 + (e - 23)) by lia.
    rewrite powerRZ_add by lra. f_equal. simpl. lra. }
  apply IZR_le in Hlo. apply IZR_lt in Hhi. rewrite abs_IZR in Hlo, Hhi.
  unfold np_float32.
  destruct (Req_dec_T _ 0) as [H0|_].
  { apply Rmult_integral in H0 as [H0|H0]; [|lra].
    rewrite H0, Rabs_R0 in Hlo. lra. }
  rewrite (binary_exponent_eq _ e He).
  - replace (IZR m * powerRZ 2 (e - 23) / powerRZ 2 (e - 23))%R with (IZR m)
      by (field; lra).
    rewrite (round_half_even_below _ m) by lra. reflexivity.
  - rewrite He0, He1, Rabs_mult, (Rabs_right (powerRZ 2 (e - 23))) by lra.
    split.
    + apply Rmult_le_compat_r; lra.
    + apply Rmult_lt_compat_r; lra.
Qed.


Example np_float32_half : np_float32 0.5 = 0.5%R.
Proof.
  unfold np_float32. destruct (Req_dec_T 0.5 0) as [H0|_]; [lra|].
  rewrite (binary_exponent_eq _ (-1)).
  - change (-1 - 23) with (-24). simpl powerRZ.
    rewrite (round_half_even_below _ 8388608); lra.
  - lia.
  - rewrite Rabs_right by lra. simpl. lra.
Qed.

(** *** Arrays *)

Section ArrayFacts.
Context {A : Type} `{Inhabited A}.

Lemma nth_map_seq {B} (f : nat → B) (n i : nat) (d : B) :
  (i < n)%nat → nth i (map f (seq 0 n)) d = f i.
Proof.
  intros Hi. rewrite (nth_indep _ d (f 0%nat)) by (now rewrite length_map, length_seq).
  rewrite map_nth. rewrite seq_nth by assumption. reflexivity.
Qed.

Lemma get_tabulate (n m : nat) (f : nat → nat → A) (i j : nat) :
  (i < n)%nat → (j < m)%nat → get (tabulate n m f) i j = f i j.
Proof.
  intros Hi Hj. unfold get, tabulate. simpl.
  rewrite (nth_map_seq (λ i, map (f i) (seq 0 m))) by assumption.
  now apply nth_map_seq.
Qed.

Lemma tabulate_ext (n m : nat) (f g : nat → nat → A) :
  (∀ i j, (i < n)%nat → (j < m)%nat → f i j = g i j) →
  tabulate n m f = tabulate n m g.
Proof.
  intros Hfg. unfold tabulate. f_equal.
  apply map_ext_in. intros i Hi. apply in_seq in Hi.
  apply map_ext_in. intros j Hj. apply in_seq in Hj.
  apply Hfg; lia.
Qed.

Lemma get_transpose (a : array2 A) (i j : nat) :
  (i < shape1 a)%nat → (j < shape0 a)%nat → get (transpose a) i j = get a j i.
Proof. intros. unfold transpose. now rewrite get_tabulate. Qed.

Lemma np_pad_reflect_length (w padded : list A) (before after : Z) :
  np_pad_reflect w before after = Ok padded →
  length padded = (Z.to_nat before + length w + Z.to_nat after)%nat.
Proof.
  unfold np_pad_reflect.
  destruct ((before <? 0) || (after <? 0)) eqn:Hneg; [discriminate|].
  apply orb_false_elim in Hneg as [Hb Ha].
  destruct w as [|x w].
  - destruct ((before =? 0) && (after =? 0)) eqn:Hz; [|discriminate].
    apply andb_prop in Hz as [Hb0 Ha0].
    intros [= <-]. simpl. lia.
  - intros [= <-]. now rewrite length_map, length_seq.
Qed.
End ArrayFacts.

Lemma get_amap {A B} `{Inhabited A} `{Inhabited B} (f : A → B) (a : array2 A) (i j : nat) :
  (i < shape0 a)%nat → (j < shape1 a)%nat → get (amap f a) i j = f (get a i j).
Proof. intros. unfold amap. now rewrite get_tabulate. Qed.

Lemma sum_range_ext (n : nat) (f g : nat → R) :
  (∀ k, (k < n)%nat → f k = g k) → sum_range n f = sum_range n g.
Proof.
  intros Hfg. unfold sum_range. f_equal.
  apply map_ext_in. intros k Hk. apply in_seq in Hk. apply Hfg. lia.
Qed.

Lemma rbind_Ok {A B} (r : result A) (k : A → result B) (b : B) :
  rbind r k = Ok b ↔ ∃ a, r = Ok a ∧ k a = Ok b.
Proof.
  destruct r as [a|e]; simpl; split.
  - eauto.
  - now intros (a' & [= ->] & Hk).
  - discriminate.
  - now intros (a' & [=] & _).
Qed.

(** *** The scalar maps *)

Section Scalars.
Variable self : UnivNetFeatureExtractor.

Local Open Scope R_scope.

Lemma denormalize_normalize (x : R) :
  normalize_max self ≠ normalize_min self → denormalize self (normalize self x) = x.
Proof. intros Hne. unfold denormalize, normalize. field. lra. Qed.

Lemma normalize_denormalize (y : R) :
  normalize_max self ≠ normalize_min self → normalize self (denormalize self y) = y.
Proof. intros Hne. unfold denormalize, normalize. field. lra. Qed.

Lemma normalize_at_min :
  normalize_max self ≠ normalize_min self → normalize self (normalize_min self) = -1.
Proof. intros Hne. unfold normalize. field. lra. Qed.

Lemma normalize_at_max :
  normalize_max self ≠ normalize_min self → normalize self (normalize_max self) = 1.
Proof. intros Hne. unfold normalize. field. lra. Qed.

Lemma decompression_compression (x : R) :
  0 < compression_clip_val self → 0 < compression_factor self →
  dynamic_range_decompression self (dynamic_range_compression self x)
  = Rmax x (compression_clip_val self).
Proof.
  intros Hclip Hfactor.
  unfold dynamic_range_decompression, dynamic_range_compression.
  assert (0 < Rmax x (compression_clip_val self)) as Hmax.
  { eapply Rlt_le_trans; [exact Hclip | apply Rmax_r]. }
  rewrite exp_ln by (apply Rmult_lt_0_compat; assumption).
  field. lra.
Qed.

(** C2.  With distinct normalization bounds, [denormalize] undoes
    [normalize] on every value, and [normalize] sends [normalize_min] to
    [-1] and [normalize_max] to [1]. *)
Theorem normalize_roundtrip (x : R) :
  normalize_max self ≠ normalize_min self →
  denormalize self (normalize self x) = x
  ∧ normalize self (normalize_min self) = -1
  ∧ normalize self (normalize_max self) = 1.
Proof.
  intros Hne. split; [|split].
  - now apply denormalize_normalize.
  - now apply normalize_at_min.
  - now apply normalize_at_max.
Qed.

(** C10.  With a positive clip value and a positive compression factor,
    decompression undoes compression on every value at or above the clip
    value, and sends the compression of any smaller value to the clip
    value. *)
Theorem decompression_inverts_compression (x : R) :
  0 < compression_clip_val self → 0 < compression_factor self →
  (compression_clip_val self <= x →
   dynamic_range_decompression self (dynamic_range_compression self x) = x)
  ∧ (x < compression_clip_val self →
     dynamic_range_decompression self (dynamic_range_compression self x)
     = compression_clip_val self).
Proof.
  intros Hclip Hfactor.
  rewrite decompression_compression by assumption.
  split; intros Hx.
  - now apply Rmax_left.
  - apply Rmax_right. lra.
Qed.
End Scalars.

(** *** The spectrogram *)

Section Spectrogram.
Context `{Collaborators}.
Variable self : UnivNetFeatureExtractor.

(** C1.  [mel_spectrogram] returns [out] exactly when the reflect-padded
    waveform has a complex STFT [cs] (taken with the precomputed window,
    the FFT length as frame and FFT length, and the hop length), the
    filter bank has as many frequency bins as [cs], and [out] is the array
    of shape (frames, mel bins) whose entry [(t, m)] is
    [ln (max (sum_k filters[k, m] * sqrt (re^2 + im^2 + mel_floor)) clip
    * factor)]: the mel floor is added under the square root, before the
    projection on the transposed filter bank; compression follows the
    projection; frames are the leading axis. *)
Theorem mel_spectrogram_pipeline (waveform : list R) (out : array2 R) :
  mel_spectrogram self waveform = Ok out ↔
  ∃ padded cs,
    np_pad_reflect waveform (reflect_pad_amount self) (reflect_pad_amount self) = Ok padded
    ∧ spectrogram padded (window self) (n_fft self) (hop_length self) (n_fft self)
        (center self) = Ok cs
    ∧ shape0 (mel_filters self) = shape0 cs
    ∧ out = tabulate (shape1 cs) (shape1 (mel_filters self)) (spec_log_mel self cs).
Proof.
  unfold mel_spectrogram. rewrite rbind_Ok.
  split.
  - intros (padded & Hpad & Hrest). apply rbind_Ok in Hrest as (cs & Hcs & Hrest).
    exists padded, cs. split; [assumption|]. split; [assumption|].
    unfold np_matmul in Hrest. simpl in Hrest.
    destruct (shape0 (mel_filters self) =? shape0 cs)%nat eqn:Hshape;
      simpl in Hrest; [|discriminate].
    apply Nat.eqb_eq in Hshape. split; [assumption|].
    injection Hrest as <-. unfold transpose, amap. simpl.
    apply tabulate_ext. intros t m Ht Hm.
    rewrite get_tabulate by assumption.
    rewrite get_tabulate by assumption.
    unfold dynamic_range_compression, spec_log_mel. rewrite Hshape.
    do 3 f_equal. apply sum_range_ext. intros k Hk.
    rewrite get_tabulate by lia.
    rewrite get_tabulate by lia.
    reflexivity.
  - intros (padded & cs & Hpad & Hcs & Hshape & ->).
    exists padded. split; [assumption|]. rewrite Hcs. simpl.
    unfold np_matmul. simpl.
    apply Nat.eqb_eq in Hshape as Hshape'. rewrite Hshape'. simpl.
    f_equal. unfold transpose, amap. simpl.
    apply tabulate_ext. intros t m Ht Hm.
    rewrite get_tabulate by assumption.
    rewrite get_tabulate by assumption.
    unfold dynamic_range_compression, spec_log_mel. rewrite Hshape.
    do 3 f_equal. apply sum_range_ext. intros k Hk.
    rewrite get_tabulate by lia.
    rewrite get_tabulate by lia.
    reflexivity.
Qed.

Lemma mel_spectrogram_shape (waveform : list R) (out : array2 R) :
  mel_spectrogram self waveform = Ok out →
  ∃ padded cs,
    np_pad_reflect waveform (reflect_pad_amount self) (reflect_pad_amount self) = Ok padded
    ∧ spectrogram padded (window self) (n_fft self) (hop_length self) (n_fft self)
        (center self) = Ok cs
    ∧ shape0 out = shape1 cs
    ∧ shape1 out = shape1 (mel_filters self).
Proof.
  unfold mel_spectrogram. intros Hout.
  apply rbind_Ok in Hout as (padded & Hpad & Hout).
  apply rbind_Ok in Hout as (cs & Hcs & Hout).
  apply rbind_Ok in Hout as (mel & Hmel & [= <-]).
  exists padded, cs. split; [assumption|]. split; [assumption|].
  unfold np_matmul in Hmel.
  destruct (negb _); [discriminate|]. injection Hmel as <-.
  split; reflexivity.
Qed.

(** C3.  Whatever function [frames] gives the frame count of the STFT
    primitive, a spectrogram returned for a waveform of length [L] has
    [frames (L + 2 * p) n_fft hop_length n_fft center] frames, where
    [p = int((n_fft - hop_length) / 2)] is the non-negative number of
    samples reflected on each side before the STFT. *)
Theorem mel_spectrogram_frame_count (frames : nat → Z → Z → Z → bool → nat)
    (waveform : list R) (out : array2 R) :
  frame_count_contract frames →
  mel_spectrogram self waveform = Ok out →
  reflect_pad_amount self = (n_fft self - hop_length self) `quot` 2
  ∧ 0 ≤ reflect_pad_amount self
  ∧ shape0 out =
      frames (length waveform + 2 * Z.to_nat (reflect_pad_amount self))%nat
        (n_fft self) (hop_length self) (n_fft self) (center self).
Proof.
  intros Hframes Hout.
  apply mel_spectrogram_shape in Hout as (padded & cs & Hpad & Hcs & Hrows & _).
  split; [reflexivity|].
  split.
  - unfold np_pad_reflect in Hpad.
    destruct (reflect_pad_amount self <? 0) eqn:Hneg; [discriminate|].
    now apply Z.ltb_ge in Hneg.
  - rewrite Hrows, (Hframes _ _ _ _ _ _ _ Hcs).
    rewrite (np_pad_reflect_length _ _ _ _ Hpad).
    f_equal. lia.
Qed.
End Spectrogram.

(** *** Witnesses on the reference instance *)

Lemma reference_frame_count :
  @frame_count_contract reference
    (λ size frame_length hop_length _ center,
       Reference.num_frames size frame_length hop_length center).
Proof.
  intros waveform window frame_length hop_length fft_length center cs.
  simpl. unfold Reference.spectrogram.
  destruct (_ || _); [discriminate|].
  destruct center.
  - destruct (np_pad_reflect _ _ _); simpl; [|discriminate].
    destruct (_ <? _); [discriminate|]. now intros [= <-].
  - simpl. destruct (_ <? _); [discriminate|]. now intros [= <-].
Qed.

Lemma mel_spectrogram_pipeline_witness :
  ∃ out cs,
    @mel_spectrogram reference small_extractor [1; 2; 3; 4; 5; 6]%R = Ok out
    ∧ Reference.spectrogram [2; 1; 2; 3; 4; 5; 6; 5]%R (Reference.hann 4) 4 2 4 false = Ok cs
    ∧ shape0 out = 3%nat ∧ shape1 out = 2%nat.
Proof.
  eexists. eexists. split; [|split; [reflexivity|]].
  - apply (proj2 (@mel_spectrogram_pipeline reference small_extractor _ _)).
    eexists. eexists.
    split; [reflexivity|]. split; [reflexivity|]. split; reflexivity.
  - split; reflexivity.
Defined.

Lemma mel_spectrogram_frame_count_witness :
  ∃ out,
    @mel_spectrogram reference small_extractor [1; 2; 3; 4; 5; 6]%R = Ok out
    ∧ reflect_pad_amount small_extractor = (4 - 2) `quot` 2
    ∧ 0 ≤ reflect_pad_amount small_extractor
    ∧ shape0 out = Reference.num_frames (6 + 2 * 1) 4 2 false.
Proof.
  eexists. split; [reflexivity|].
  apply (@mel_spectrogram_frame_count reference small_extractor _
           [1; 2; 3; 4; 5; 6]%R _ reference_frame_count eq_refl).
Defined.

Lemma normalize_roundtrip_witness :
  denormalize small_extractor (normalize small_extractor (-11.5129)) = (-11.5129)%R
  ∧ normalize small_extractor (normalize_min small_extractor) = (-1)%R
  ∧ normalize small_extractor (normalize_max small_extractor) = 1%R.
Proof.
  apply (normalize_roundtrip small_extractor). simpl. lra.
Defined.

Lemma decompression_inverts_compression_witness :
  dynamic_range_decompression small_extractor
    (dynamic_range_compression small_extractor 0.5) = 0.5%R
  ∧ dynamic_range_decompression small_extractor
      (dynamic_range_compression small_extractor 0) = 1e-5%R.
Proof.
  split.
  - apply (decompression_inverts_compression small_extractor 0.5); simpl; lra.
  - apply (decompression_inverts_compression small_extractor 0); simpl; lra.
Defined.

Example small_frame_count : Reference.num_frames 8 4 2 false = 3%nat.
Proof. reflexivity. Qed.

(** In binary64 the default bounds go to [-1] and [1] with no rounding
    error, and the round trip of [0.3] comes back within [1e-14]. *)
Module Binary64Runs.
Import PrimFloat.

Example binary64_bounds :
  Binary64.normalize Binary64.default_min Binary64.default_max Binary64.default_min
  = (-1)%float
  ∧ Binary64.normalize Binary64.default_min Binary64.default_max Binary64.default_max
    = 1%float.
Proof. split; vm_compute; reflexivity. Qed.

Example binary64_roundtrip :
  let y := Binary64.denormalize Binary64.default_min Binary64.default_max
             (Binary64.normalize Binary64.default_min Binary64.default_max 0.3) in
  PrimFloat.ltb (PrimFloat.abs (PrimFloat.sub y 0.3)) 1e-14 = true.
Proof. vm_compute. reflexivity. Qed.
End Binary64Runs.

(** *** The call *)

Section Call.
Context `{Collaborators}.
Variable self : UnivNetFeatureExtractor.

Lemma featurize_stages (a : call_args) (st : State) :
  featurize self a st =
  match padded_spectrograms self a with
  | Raise e => (Raise e, st)
  | Ok spectrograms =>
      if a_return_noise a then
        match mmap (λ spectrogram,
                      generate_noise self (shape0 spectrogram) (a_model_in_channels a))
                spectrograms st with
        | (Ok noise, st') => (complete self a spectrograms (Some noise), st')
        | (Raise e, st') => (Raise e, st')
        end
      else (complete self a spectrograms None, st)
  end.
Proof.
  unfold featurize, padded_spectrograms, unpadded_spectrograms, padded_inputs, complete.
  unfold mbind, lift, mret.
  destruct (is_ndarray (a_raw_speech a) && (1 <? ndim (a_raw_speech a))%nat
            && (2 <? ndim (a_raw_speech a))%nat); [reflexivity|].
  destruct (if is_ndarray (a_raw_speech a) && (1 <? ndim (a_raw_speech a))%nat
            then Ok true
            else if is_ndarray (a_raw_speech a) then Ok false
                 else first_is_sequence (a_raw_speech a)) as [is_batched|e];
    simpl; [|reflexivity].
  destruct (pad _ _ _ _ _) as [input_features|e]; simpl; [|reflexivity].
  destruct (rmap (mel_spectrogram self) input_features) as [mels|e]; simpl; [|reflexivity].
  destruct input_features as [|w ws]; simpl; [reflexivity|].
  destruct (a_pad_end a); simpl.
  - destruct (rmap _ (map (amap np_float32) mels)) as [sp|e]; simpl; [|reflexivity].
    destruct (a_return_noise a); simpl.
    + destruct (mmap _ sp st) as [[nz|e] st']; simpl; [|reflexivity].
      destruct (a_return_tensors a); reflexivity.
    + destruct (a_return_tensors a); reflexivity.
  - destruct (a_return_noise a); simpl.
    + destruct (mmap _ (map (amap np_float32) mels) st) as [[nz|e] st']; simpl;
        [|reflexivity].
      destruct (a_return_tensors a); reflexivity.
    + destruct (a_return_tensors a); reflexivity.
Qed.
Lemma call_unfold (a : call_args) (st : State) :
  __call__ self a st =
  match a_sampling_rate a with
  | Some sr =>
      if bool_decide (sr ≠ sampling_rate self)
      then (Raise (ValueError (sampling_rate_error self sr)), st)
      else featurize self a st
  | None => featurize self a (with_warning sampling_rate_warning st)
  end.
Proof.
  unfold __call__, check_sampling_rate, mbind.
  destruct (a_sampling_rate a) as [sr|]; [|reflexivity].
  destruct (bool_decide (sr ≠ sampling_rate self)); reflexivity.
Qed.

(** **** Noise *)

Lemma standard_normal_array_shape (g : Generator) (n : nat) (m : Z) :
  rfmap shape (fst (standard_normal_array g n m)) =
  if m <? 0 then Raise (ValueError "negative dimensions are not allowed")
  else Ok (n, Z.to_nat m).
Proof.
  unfold standard_normal_array. destruct (m <? 0); [reflexivity|].
  destruct (standard_normal g (n * Z.to_nat m)) as [samples g']. reflexivity.
Qed.

Lemma generate_noise_shape (n : nat) (channels : option Z) (st : State) :
  rfmap shape (fst (generate_noise self n channels st)) =
  if default (model_in_channels self) channels <? 0
  then Raise (ValueError "negative dimensions are not allowed")
  else Ok (n, Z.to_nat (default (model_in_channels self) channels)).
Proof.
  unfold generate_noise.
  destruct (generator_obj st) as [g|].
  - pose proof (standard_normal_array_shape g n
                  (default (model_in_channels self) channels)) as Hshape.
    destruct (standard_normal_array g n _) as [noise g']. exact Hshape.
  - destruct (default_rng (os_entropy st)) as [g e]. simpl.
    apply standard_normal_array_shape.
Qed.

Lemma mmap_noise_shapes (a : call_args) (l : list (array2 R)) (st : State) :
  rfmap (map shape)
    (fst (mmap (λ spectrogram,
                  generate_noise self (shape0 spectrogram) (a_model_in_channels a)) l st))
  = noise_shapes self a l.
Proof.
  revert st. induction l as [|s l IH]; intros st; [reflexivity|].
  simpl. unfold mbind at 1.
  pose proof (generate_noise_shape (shape0 s) (a_model_in_channels a) st) as Hs.
  destruct (generate_noise self (shape0 s) (a_model_in_channels a) st) as [[nz|e] st1];
    simpl in Hs;
    destruct (default (model_in_channels self) (a_model_in_channels a) <? 0) eqn:Hneg;
    try discriminate.
  - unfold mbind. specialize (IH st1).
    destruct (mmap _ l st1) as [[ys|e] st2]; simpl in *.
    + injection Hs as Hs0 Hs1.
      change (shape nz) with (shape0 nz, shape1 nz). rewrite Hs0, Hs1.
      f_equal. f_equal.
      unfold noise_shapes in IH. destruct l as [|s' l'].
      * destruct ys; [reflexivity|discriminate].
      * rewrite Hneg in IH. now injection IH.
    + unfold noise_shapes in IH. destruct l as [|s' l']; [discriminate|].
      rewrite Hneg in IH. discriminate.
  - simpl. now injection Hs as ->.
Qed.

Lemma mmap_noise_supplied (a : call_args) (l : list (array2 R))
    (g : Generator) (e : Entropy) (w : list string) :
  mmap (λ spectrogram,
          generate_noise self (shape0 spectrogram) (a_model_in_channels a)) l
    {| generator_obj := Some g; os_entropy := e; warnings := w |}
  = (fst (noise_from self a g l),
     {| generator_obj := Some (snd (noise_from self a g l));
        os_entropy := e; warnings := w |}).
Proof.
  revert g. induction l as [|s l IH]; intros g; [reflexivity|].
  simpl. unfold mbind at 1. unfold generate_noise at 1. simpl.
  destruct (standard_normal_array g (shape0 s) _) as [[nz|err] g1]; simpl; [|reflexivity].
  unfold mbind. rewrite IH.
  destruct (noise_from self a g1 l) as [[ys|err] g2]; reflexivity.
Qed.

Lemma same_shapes_shape (l1 l2 : list (array2 R)) :
  map shape l1 = map shape l2 → same_shapes l1 = same_shapes l2.
Proof.
  destruct l1 as [|x l1], l2 as [|y l2]; try discriminate; [reflexivity|].
  simpl. intros [= H0 H1 Hl]. rewrite H0, H1. clear H0 H1.
  revert l2 Hl. induction l1 as [|x' l1 IH]; intros [|y' l2]; try discriminate;
    [reflexivity|].
  simpl. intros [= H0 H1 Hl]. rewrite H0, H1. f_equal. now apply IH.
Qed.

Lemma complete_noise_free (a : call_args) (sp nz1 nz2 : list (array2 R)) :
  map shape nz1 = map shape nz2 →
  rfmap noise_free (complete self a sp (Some nz1))
  = rfmap noise_free (complete self a sp (Some nz2)).
Proof.
  intros Hshape. unfold complete.
  destruct (a_return_tensors a) as [t|]; simpl.
  - unfold convert_to_tensors. simpl.
    rewrite (same_shapes_shape nz1 nz2 Hshape).
    destruct (_ && _); simpl; [|reflexivity].
    unfold noise_free. simpl. now rewrite Hshape.
  - unfold noise_free. simpl. now rewrite Hshape.
Qed.

Lemma featurize_noise_free (a : call_args) (st1 st2 : State) :
  rfmap noise_free (fst (featurize self a st1))
  = rfmap noise_free (fst (featurize self a st2)).
Proof.
  rewrite !featurize_stages.
  destruct (padded_spectrograms self a) as [sp|e]; [|reflexivity].
  destruct (a_return_noise a); [|reflexivity].
  pose proof (mmap_noise_shapes a sp st1) as H1.
  pose proof (mmap_noise_shapes a sp st2) as H2.
  destruct (mmap _ sp st1) as [[nz1|e1] st1'], (mmap _ sp st2) as [[nz2|e2] st2'];
    simpl in *; rewrite <- H2 in H1; try discriminate.
  - injection H1 as H1. now apply complete_noise_free.
  - now injection H1 as ->.
Qed.

(** C8.  Two calls with the same arguments and generators in the same state
    return the same batch, noise included, and leave their generators in the
    same state, whatever the OS entropy and the log are; and between any two
    states, the spectrograms, the noise shapes, the tensor framework and the
    exception, if any, are the same: only the noise samples depend on the
    generator. *)
Theorem noise_determined_by_generator (a : call_args) (g : Generator)
    (e1 e2 : Entropy) (w1 w2 : list string) (st1 st2 : State) :
  let seeded e w := {| generator_obj := Some g; os_entropy := e; warnings := w |} in
  fst (__call__ self a (seeded e1 w1)) = fst (__call__ self a (seeded e2 w2))
  ∧ generator_obj (snd (__call__ self a (seeded e1 w1)))
    = generator_obj (snd (__call__ self a (seeded e2 w2)))
  ∧ rfmap noise_free (fst (__call__ self a st1))
    = rfmap noise_free (fst (__call__ self a st2)).
Proof.
  intros seeded. rewrite !call_unfold.
  assert (∀ e w e' w',
            fst (featurize self a (seeded e w)) = fst (featurize self a (seeded e' w'))
            ∧ generator_obj (snd (featurize self a (seeded e w)))
              = generator_obj (snd (featurize self a (seeded e' w')))) as Hseeded.
  { intros e w e' w'. rewrite !featurize_stages.
    destruct (padded_spectrograms self a) as [sp|err]; [|split; reflexivity].
    destruct (a_return_noise a); [|split; reflexivity].
    unfold seeded. rewrite !mmap_noise_supplied.
    destruct (noise_from self a g sp) as [[nz|err] g']; split; reflexivity. }
  destruct (a_sampling_rate a) as [sr|].
  - destruct (bool_decide (sr ≠ sampling_rate self)).
    + repeat split; reflexivity.
    + destruct (Hseeded e1 w1 e2 w2) as [Hfst Hgen].
      repeat split; [exact Hfst | exact Hgen | apply featurize_noise_free].
  - destruct (Hseeded e1 (sampling_rate_warning :: w1) e2 (sampling_rate_warning :: w2))
      as [Hfst Hgen].
    repeat split; [exact Hfst | exact Hgen | apply featurize_noise_free].
Qed.

(** **** What a successful call went through *)

Lemma rmap_Forall2 {A B} (f : A → result B) (l : list A) (l' : list B) :
  rmap f l = Ok l' → Forall2 (λ x y, f x = Ok y) l l'.
Proof.
  revert l'. induction l as [|x l IH]; simpl; intros l' Hl.
  - injection Hl as <-. constructor.
  - apply rbind_Ok in Hl as (y & Hy & Hl).
    apply rbind_Ok in Hl as (ys & Hys & [= <-]).
    constructor; [assumption|]. now apply IH.
Qed.

Lemma Forall2_of_map_eq {A B C} (f : A → C) (g : B → C) (l1 : list A) (l2 : list B) :
  map f l1 = map g l2 → Forall2 (λ x y, f x = g y) l1 l2.
Proof.
  revert l2. induction l1 as [|x l1 IH]; intros [|y l2]; simpl; try discriminate.
  - constructor.
  - intros [= Hxy Hl]. constructor; [assumption|]. now apply IH.
Qed.

Lemma call_Ok_inv (a : call_args) (st : State) (b : BatchFeature) (st' : State) :
  __call__ self a st = (Ok b, st') → ∃ st0, featurize self a st0 = (Ok b, st').
Proof.
  rewrite call_unfold. destruct (a_sampling_rate a) as [sr|].
  - destruct (bool_decide (sr ≠ sampling_rate self)); [discriminate|]. eauto.
  - eauto.
Qed.

Lemma featurize_Ok_inv (a : call_args) (st : State) (b : BatchFeature) (st' : State) :
  featurize self a st = (Ok b, st') →
  ∃ sp noise_sequence,
    padded_spectrograms self a = Ok sp
    ∧ complete self a sp noise_sequence = Ok b
    ∧ (if a_return_noise a
       then ∃ nz, noise_sequence = Some nz ∧ noise_shapes self a sp = Ok (map shape nz)
       else noise_sequence = None).
Proof.
  rewrite featurize_stages.
  destruct (padded_spectrograms self a) as [sp|e]; [|discriminate].
  destruct (a_return_noise a) eqn:Hnoise.
  - pose proof (mmap_noise_shapes a sp st) as Hshapes.
    destruct (mmap _ sp st) as [[nz|e] st1]; [|discriminate].
    intros [= Hb <-]. exists sp, (Some nz).
    split; [reflexivity|]. split; [assumption|].
    exists nz. split; [reflexivity|]. now rewrite <- Hshapes.
  - intros [= Hb <-]. exists sp, None. repeat split. assumption.
Qed.

Lemma complete_Ok_inv (a : call_args) (sp : list (array2 R))
    (noise_sequence : option (list (array2 R))) (b : BatchFeature) :
  complete self a sp noise_sequence = Ok b →
  bf_spectrogram b =
    (if default (do_normalize self) (a_do_normalize a)
     then map (amap (normalize self)) sp else sp)
  ∧ bf_noise_sequence b = noise_sequence.
Proof.
  unfold complete. destruct (a_return_tensors a) as [t|].
  - unfold convert_to_tensors. destruct (_ && _); [|discriminate].
    intros [= <-]. split; reflexivity.
  - intros [= <-]. split; reflexivity.
Qed.






Lemma featurize_noise_shapes (a : call_args) (st : State) (b : BatchFeature) (st' : State) :
  featurize self a st = (Ok b, st') →
  a_return_noise a = true →
  ∃ noise,
    bf_noise_sequence b = Some noise
    ∧ Forall2
        (λ nz spectrogram,
           shape0 nz = shape0 spectrogram
           ∧ Z.of_nat (shape1 nz)
             = default (model_in_channels self) (a_model_in_channels a))
        noise (bf_spectrogram b).
Proof.
  intros Hcall Hnoise.
  apply featurize_Ok_inv in Hcall as (sp & noise & _ & Hb & Hshapes).
  rewrite Hnoise in Hshapes. destruct Hshapes as (nz & -> & Hshapes).
  apply complete_Ok_inv in Hb as [Hsp Hnz].
  exists nz. split; [assumption|]. rewrite Hsp.
  assert (Forall2
            (λ n spectrogram,
               shape0 n = shape0 spectrogram
               ∧ Z.of_nat (shape1 n)
                 = default (model_in_channels self) (a_model_in_channels a))
            nz sp) as Hall.
  { unfold noise_shapes in Hshapes. destruct sp as [|s sp].
    - injection Hshapes as Hnil. symmetry in Hnil.
      apply map_eq_nil in Hnil as ->. constructor.
    - destruct (default (model_in_channels self) (a_model_in_channels a) <? 0) eqn:Hneg;
        [discriminate|].
      apply Z.ltb_ge in Hneg. injection Hshapes as Hshapes.
      apply Forall2_flip.
      eapply Forall2_impl;
        [exact (Forall2_of_map_eq
                  (λ spectrogram : array2 R,
                     (shape0 spectrogram,
                      Z.to_nat (default (model_in_channels self) (a_model_in_channels a))))
                  shape (s :: sp) nz Hshapes)|].
      intros spectrogram n. simpl. intros [= H0 H1].
      split; [congruence|]. rewrite <- H1. lia. }
  destruct (default (do_normalize self) (a_do_normalize a)); [|assumption].
  apply Forall2_fmap_r. eapply Forall2_impl; [exact Hall|].
  intros n spectrogram. simpl. tauto.
Qed.

(** C7.  In a batch returned with [return_noise=True], the noise arrays are
    paired with the returned spectrograms; each has as many rows as its
    spectrogram has frames, end-padding included, and as many columns as the
    argument [model_in_channels] or, without it, the configured
    [model_in_channels]. *)
Theorem noise_matches_spectrogram (a : call_args) (st : State)
    (b : BatchFeature) (st' : State) :
  __call__ self a st = (Ok b, st') →
  a_return_noise a = true →
  ∃ noise,
    bf_noise_sequence b = Some noise
    ∧ Forall2
        (λ nz spectrogram,
           shape0 nz = shape0 spectrogram
           ∧ Z.of_nat (shape1 nz)
             = default (model_in_channels self) (a_model_in_channels a))
        noise (bf_spectrogram b).
Proof.
  intros Hcall. apply call_Ok_inv in Hcall as [st0 Hcall].
  now apply (featurize_noise_shapes a st0 b st').
Qed.

(** **** Validation *)

Lemma append_assoc (s1 s2 s3 : string) : (s1 +:+ s2) +:+ s3 = s1 +:+ (s2 +:+ s3).
Proof.
  induction s1 as [|c s1 IH]; [reflexivity|].
  change (String c ((s1 +:+ s2) +:+ s3) = String c (s1 +:+ (s2 +:+ s3))).
  now rewrite IH.
Qed.

Lemma sampling_rate_error_names_rates (received : Z) :
  occurs_in (pretty (sampling_rate self)) (sampling_rate_error self received)
  ∧ occurs_in (pretty received) (sampling_rate_error self received).
Proof.
  unfold sampling_rate_error. split.
  - exists ("The model corresponding to this feature extractor: UnivNetFeatureExtractor was trained using a"
            +:+ " sampling rate of ").
    eexists. rewrite append_assoc. reflexivity.
  - exists ("The model corresponding to this feature extractor: UnivNetFeatureExtractor was trained using a"
            +:+ " sampling rate of " +:+ pretty (sampling_rate self)
            +:+ ". Please make sure that the provided `raw_speech` input"
            +:+ " was sampled with " +:+ pretty (sampling_rate self)
            +:+ " and not "), ".".
    rewrite !append_assoc. reflexivity.
Qed.

Lemma generate_noise_warnings (n : nat) (channels : option Z) (st : State) :
  warnings (snd (generate_noise self n channels st)) = warnings st.
Proof.
  unfold generate_noise. destruct (generator_obj st) as [g|].
  - destruct (standard_normal_array g n _). reflexivity.
  - destruct (default_rng (os_entropy st)). reflexivity.
Qed.

Lemma mmap_noise_warnings (a : call_args) (l : list (array2 R)) (st : State) :
  warnings
    (snd (mmap (λ spectrogram,
                  generate_noise self (shape0 spectrogram) (a_model_in_channels a)) l st))
  = warnings st.
Proof.
  revert st. induction l as [|s l IH]; intros st; [reflexivity|].
  simpl. unfold mbind at 1.
  pose proof (generate_noise_warnings (shape0 s) (a_model_in_channels a) st) as Hs.
  destruct (generate_noise self (shape0 s) (a_model_in_channels a) st) as [[nz|e] st1];
    simpl in Hs; [|exact Hs].
  unfold mbind. specialize (IH st1).
  destruct (mmap _ l st1) as [[ys|e] st2]; simpl in *; congruence.
Qed.

Lemma featurize_warnings (a : call_args) (st : State) :
  warnings (snd (featurize self a st)) = warnings st.
Proof.
  rewrite featurize_stages.
  destruct (padded_spectrograms self a) as [sp|e]; [|reflexivity].
  destruct (a_return_noise a); [|reflexivity].
  pose proof (mmap_noise_warnings a sp st) as Hw.
  destruct (mmap _ sp st) as [[nz|e] st1]; exact Hw.
Qed.

(** C4.  A call with an explicit sampling rate other than the configured one
    raises, whatever its other arguments and without touching the state, a
    [ValueError] whose message contains the decimal forms of the configured
    and of the received rate.  A call without a sampling rate is the rest of
    the call run after the warning has been logged, and the warning is in
    the log when the call ends. *)
Theorem sampling_rate_validation (a : call_args) (st : State) :
  (∀ sr, a_sampling_rate a = Some sr → sr ≠ sampling_rate self →
     __call__ self a st = (Raise (ValueError (sampling_rate_error self sr)), st)
     ∧ occurs_in (pretty (sampling_rate self)) (sampling_rate_error self sr)
     ∧ occurs_in (pretty sr) (sampling_rate_error self sr))
  ∧ (a_sampling_rate a = None →
     __call__ self a st = featurize self a (with_warning sampling_rate_warning st)
     ∧ warnings (snd (__call__ self a st)) = sampling_rate_warning :: warnings st).
Proof.
  split.
  - intros sr Hsr Hne. split; [|apply sampling_rate_error_names_rates].
    rewrite call_unfold, Hsr. now rewrite bool_decide_eq_true_2.
  - intros Hnone. rewrite call_unfold, Hnone. split; [reflexivity|].
    now rewrite featurize_warnings.
Qed.

Lemma featurize_three_dim (a : call_args) (st : State)
    (d0 d1 d2 : nat) (ds : list nat) (data : list R) :
  a_raw_speech a = NdArrayN d0 d1 d2 ds data →
  featurize self a st = (Raise (ValueError (mono_error self)), st).
Proof.
  intros Hraw. rewrite featurize_stages.
  unfold padded_spectrograms, unpadded_spectrograms, padded_inputs.
  rewrite Hraw. reflexivity.
Qed.

(** C5, amended.  A call whose [raw_speech] is an array with three or more
    axes raises a [ValueError]: the sampling-rate error when an explicit
    sampling rate differs from the configured one, the mono-channel error
    otherwise.  The rows of an array with two axes pass the shape check and
    go to padding. *)
Theorem three_dim_array_rejected (a : call_args) (st : State) :
  (∀ d0 d1 d2 ds data,
     a_raw_speech a = NdArrayN d0 d1 d2 ds data →
     fst (__call__ self a st) =
     Raise (ValueError
              match a_sampling_rate a with
              | Some sr =>
                  if bool_decide (sr ≠ sampling_rate self)
                  then sampling_rate_error self sr
                  else mono_error self
              | None => mono_error self
              end))
  ∧ (∀ x, a_raw_speech a = NdArray2 x →
       padded_inputs self a =
       pad (speech_items (NdArray2 x)) (a_padding a)
         (default (num_max_samples self) (a_max_length a))
         (a_truncation a) (a_pad_to_multiple_of a)).
Proof.
  split.
  - intros d0 d1 d2 ds data Hraw. rewrite call_unfold.
    destruct (a_sampling_rate a) as [sr|].
    + destruct (bool_decide (sr ≠ sampling_rate self)); [reflexivity|].
      now rewrite (featurize_three_dim a st d0 d1 d2 ds data).
    + now rewrite (featurize_three_dim a _ d0 d1 d2 ds data).
  - intros x Hraw. unfold padded_inputs. rewrite Hraw. reflexivity.
Qed.
End Call.

(** *** Serialization *)

Section ToDict.
Context `{Collaborators}.

Lemma drop_derived_eq (output : gmap string pyval) :
  drop_derived output =
  delete "num_max_samples"
    (delete "n_freqs" (delete "n_fft" (delete "mel_filters" (delete "window" output)))).
Proof.
  assert (∀ (m : gmap string pyval) name,
            (if bool_decide (is_Some (m !! name)) then delete name m else m)
            = delete name m) as Hstep.
  { intros m name. case_bool_decide as Hin; [reflexivity|].
    symmetry. apply delete_id. now apply eq_None_not_Some. }
  unfold drop_derived, names. simpl. now rewrite !Hstep.
Qed.

Lemma drop_derived_lookup_name (output : gmap string pyval) (name : string) :
  name ∈ names → drop_derived output !! name = None.
Proof.
  intros Hname. rewrite drop_derived_eq. unfold names in Hname.
  repeat (apply elem_of_cons in Hname as [-> | Hname];
          [now simplify_map_eq|]).
  now apply elem_of_nil in Hname.
Qed.

Lemma drop_derived_lookup_other (output : gmap string pyval) (key : string) :
  key ∉ names → drop_derived output !! key = output !! key.
Proof.
  intros Hkey. rewrite drop_derived_eq. unfold names in Hkey.
  rewrite !lookup_delete_ne; [reflexivity| | | | |];
    intros <-; apply Hkey; set_solver.
Qed.

(** C9.  The serialized form has none of the keys [window], [mel_filters],
    [n_fft], [n_freqs] and [num_max_samples], whatever mapping the
    superclass produced, and agrees with that mapping on every other key; in
    particular it keeps the constructor parameters the five are computed
    from. *)
Theorem to_dict_drops_derived_fields (self : UnivNetFeatureExtractor) :
  (∀ output name,
     name ∈ ["window"; "mel_filters"; "n_fft"; "n_freqs"; "num_max_samples"] →
     drop_derived output !! name = None ∧ to_dict self !! name = None)
  ∧ (∀ output key,
       key ∉ ["window"; "mel_filters"; "n_fft"; "n_freqs"; "num_max_samples"] →
       drop_derived output !! key = output !! key)
  ∧ to_dict self !! "win_length" = Some (PyInt (win_length self))
  ∧ to_dict self !! "win_function" = Some (PyStr (win_function self))
  ∧ to_dict self !! "filter_length" = Some (from_option PyInt PyNone (filter_length self))
  ∧ to_dict self !! "num_mel_bins" = Some (PyInt (num_mel_bins self))
  ∧ to_dict self !! "fmin" = Some (PyFloat (fmin self))
  ∧ to_dict self !! "fmax" = Some (PyFloat (fmax self))
  ∧ to_dict self !! "sampling_rate" = Some (PyInt (sampling_rate self))
  ∧ to_dict self !! "max_length_s" = Some (PyInt (max_length_s self)).
Proof.
  split; [|split].
  - intros output name Hname.
    split; [|unfold to_dict]; now apply drop_derived_lookup_name.
  - intros output key Hkey. now apply drop_derived_lookup_other.
  - unfold to_dict.
    repeat split; (rewrite drop_derived_lookup_other; [reflexivity|set_solver]).
Qed.
End ToDict.

Lemma sampling_rate_validation_witness :
  (@__call__ reference small_extractor (stereo_call (Some 16000)) initial_state
   = (Raise (ValueError (sampling_rate_error small_extractor 16000)), initial_state)
   ∧ occurs_in "24000" (sampling_rate_error small_extractor 16000)
   ∧ occurs_in "16000" (sampling_rate_error small_extractor 16000))
  ∧ warnings (snd (@__call__ reference small_extractor (stereo_call None) initial_state))
    = [sampling_rate_warning].
Proof.
  split.
  - apply (proj1 (@sampling_rate_validation reference small_extractor
                    (stereo_call (Some 16000)) initial_state) 16000 eq_refl).
    simpl. lia.
  - apply (proj2 (@sampling_rate_validation reference small_extractor
                    (stereo_call None) initial_state) eq_refl).
Defined.

Lemma three_dim_array_rejected_witness :
  fst (@__call__ reference small_extractor (stereo_call None) initial_state)
  = Raise (ValueError (@mono_error reference small_extractor)).
Proof.
  apply (proj1 (@three_dim_array_rejected reference small_extractor
                  (stereo_call None) initial_state) 1 2 3 [] _ eq_refl)%nat.
Defined.

(** C5 as stated fails: with a sampling rate of 16000 against the configured
    24000, an array of shape (1, 2, 3) is answered with the sampling-rate
    error, not with the mono-channel error. *)
Lemma three_dim_array_counterexample :
  fst (@__call__ reference small_extractor (stereo_call (Some 16000)) initial_state)
  = Raise (ValueError (sampling_rate_error small_extractor 16000))
  ∧ fst (@__call__ reference small_extractor (stereo_call (Some 16000)) initial_state)
    ≠ Raise (ValueError (@mono_error reference small_extractor)).
Proof.
  rewrite call_unfold. split; [reflexivity|]. discriminate.
Qed.

Lemma to_dict_drops_derived_fields_witness :
  to_dict small_extractor !! "mel_filters" = None
  ∧ to_dict small_extractor !! "hop_length" = Some (PyInt 2).
Proof.
  destruct (@to_dict_drops_derived_fields small_extractor) as (Hdrop & Hkeep & _).
  split.
  - apply (Hdrop ∅ "mel_filters"). apply (bool_decide_unpack _). vm_compute. exact I.
  - unfold to_dict. rewrite (Hkeep _ "hop_length"); [reflexivity|].
    apply (bool_decide_unpack _). vm_compute. exact I.
Defined.


Lemma noise_matches_spectrogram_witness :
  ∃ b st' noise,
    @__call__ reference small_extractor batch_call seeded_state = (Ok b, st')
    ∧ bf_noise_sequence b = Some noise
    ∧ map shape noise = [(5, 3); (6, 3)]%nat
    ∧ Forall2
        (λ nz spectrogram,
           shape0 nz = shape0 spectrogram ∧ Z.of_nat (shape1 nz) = 3)
        noise (bf_spectrogram b).
Proof.
  destruct (@__call__ reference small_extractor batch_call seeded_state) as [r st'] eqn:Hcall.
  assert (∃ b noise,
            r = Ok b ∧ bf_noise_sequence b = Some noise
            ∧ map shape noise = [(5, 3); (6, 3)]%nat)
    as (b & noise & -> & Hnoise & Hshapes).
  { injection Hcall as <- _. eexists. eexists. repeat split; reflexivity. }
  destruct (@noise_matches_spectrogram reference small_extractor batch_call seeded_state
              b st' Hcall eq_refl) as (noise' & Hnoise' & Hall).
  exists b, st', noise.
  split; [reflexivity|]. split; [assumption|]. split; [assumption|].
  rewrite Hnoise in Hnoise'. injection Hnoise' as <-. exact Hall.
Defined.


(** ** Further properties of the extractor *)

(** *** Compression and normalization *)

Section ScalarRanges.
Variable self : UnivNetFeatureExtractor.

Local Open Scope R_scope.

Lemma ln_le_compat (x y : R) : 0 < x → x <= y → ln x <= ln y.
Proof.
  intros Hx [Hlt | ->]; [|lra].
  left. now apply ln_increasing.
Qed.

(** X1.  With a positive clip value and a positive factor, the compression
    is non-decreasing, never goes below [ln (clip * factor)], and takes
    that value everywhere at or below the clip value. *)
Theorem compression_floor (x y : R) :
  0 < compression_clip_val self → 0 < compression_factor self →
  ln (compression_clip_val self * compression_factor self)
    <= dynamic_range_compression self x
  ∧ (x <= compression_clip_val self →
     dynamic_range_compression self x
     = ln (compression_clip_val self * compression_factor self))
  ∧ (x <= y → dynamic_range_compression self x <= dynamic_range_compression self y).
Proof.
  intros Hclip Hfactor. unfold dynamic_range_compression.
  assert (∀ z, compression_clip_val self <= Rmax z (compression_clip_val self)) as Hmax
    by (intros z; apply Rmax_r).
  split; [|split].
  - apply ln_le_compat; [now apply Rmult_lt_0_compat|].
    apply Rmult_le_compat_r; [lra | apply Hmax].
  - intros Hx. now rewrite Rmax_right.
  - intros Hxy. apply ln_le_compat.
    + apply Rmult_lt_0_compat; [|assumption].
      eapply Rlt_le_trans; [exact Hclip | apply Hmax].
    + apply Rmult_le_compat_r; [lra|]. now apply Rle_max_compat_r.
Qed.

(** X2.  On the range of the compression, that is from
    [ln (clip * factor)] upwards, compression undoes decompression. *)
Theorem compression_inverts_decompression (y : R) :
  0 < compression_clip_val self → 0 < compression_factor self →
  ln (compression_clip_val self * compression_factor self) <= y →
  dynamic_range_compression self (dynamic_range_decompression self y) = y.
Proof.
  intros Hclip Hfactor Hy.
  unfold dynamic_range_compression, dynamic_range_decompression.
  assert (compression_clip_val self * compression_factor self <= exp y) as Hexp.
  { rewrite <- (exp_ln (compression_clip_val self * compression_factor self))
      by (now apply Rmult_lt_0_compat).
    destruct Hy as [Hlt | ->]; [left; now apply exp_increasing | lra]. }
  rewrite Rmax_left.
  - replace (exp y / compression_factor self * compression_factor self) with (exp y)
      by (field; lra).
    apply ln_exp.
  - apply (Rmult_le_reg_r (compression_factor self)); [assumption|].
    replace (exp y / compression_factor self * compression_factor self) with (exp y)
      by (field; lra).
    assumption.
Qed.

(** X3.  With [normalize_min < normalize_max], [normalize] is strictly
    increasing, a value lies between the two bounds exactly when its image
    lies in [[-1, 1]], and [normalize] undoes [denormalize]. *)
Theorem normalize_onto_unit_interval (x y : R) :
  normalize_min self < normalize_max self →
  (x < y → normalize self x < normalize self y)
  ∧ (normalize_min self <= x <= normalize_max self ↔ -1 <= normalize self x <= 1)
  ∧ normalize self (denormalize self y) = y.
Proof.
  intros Hlt.
  assert (0 < normalize_max self - normalize_min self) as Hd by lra.
  assert (∀ z, normalize self z
               = 2 * (z - normalize_min self) * / (normalize_max self - normalize_min self)
                 - 1) as Hnorm
    by (intros z; unfold normalize; field; lra).
  pose proof (Rinv_0_lt_compat _ Hd) as Hinv.
  assert (∀ z, z * / (normalize_max self - normalize_min self) <= 1
               ↔ z <= normalize_max self - normalize_min self) as Hle.
  { intros z. split; intros Hz.
    - apply (Rmult_le_reg_r (/ (normalize_max self - normalize_min self))); [assumption|].
      rewrite Rinv_r by lra. assumption.
    - apply (Rmult_le_compat_r (/ (normalize_max self - normalize_min self))) in Hz;
        [|lra].
      rewrite Rinv_r in Hz by lra. assumption. }
  split; [|split].
  - intros Hxy. rewrite !Hnorm.
    assert ((x - normalize_min self) * / (normalize_max self - normalize_min self)
            < (y - normalize_min self) * / (normalize_max self - normalize_min self))
      by (apply Rmult_lt_compat_r; lra).
    lra.
  - rewrite Hnorm. split.
    + intros [Hlo Hhi]. split.
      * assert (0 <= (x - normalize_min self)
                     * / (normalize_max self - normalize_min self))
          by (apply Rmult_le_pos; lra).
        lra.
      * assert ((x - normalize_min self) * / (normalize_max self - normalize_min self) <= 1)
          by (apply Hle; lra).
        lra.
    + intros [Hlo Hhi]. split.
      * assert (0 <= (x - normalize_min self)
                     * / (normalize_max self - normalize_min self)) as Hpos by lra.
        apply (Rmult_le_compat_r (normalize_max self - normalize_min self)) in Hpos;
          [|lra].
        rewrite Rmult_assoc, Rinv_l in Hpos by lra. lra.
      * assert ((x - normalize_min self) * / (normalize_max self - normalize_min self) <= 1)
          as Hone by lra.
        apply Hle in Hone. lra.
  - unfold normalize, denormalize. field. lra.
Qed.
End ScalarRanges.

Lemma compression_floor_witness :
  (ln (1e-5 * 1.0) <= dynamic_range_compression small_extractor 0
   ∧ (0 <= 1e-5 → dynamic_range_compression small_extractor 0 = ln (1e-5 * 1.0))
   ∧ (0 <= 0.5 →
      dynamic_range_compression small_extractor 0
      <= dynamic_range_compression small_extractor 0.5))%R.
Proof.
  apply (compression_floor small_extractor 0 0.5); simpl; lra.
Defined.

Lemma compression_inverts_decompression_witness :
  dynamic_range_compression small_extractor
    (dynamic_range_decompression small_extractor (ln (1e-5 * 1.0)))
  = ln (1e-5 * 1.0).
Proof.
  apply (compression_inverts_decompression small_extractor); simpl; lra.
Defined.

Lemma normalize_onto_unit_interval_witness :
  ((0 < 1 → normalize small_extractor 0 < normalize small_extractor 1)
   ∧ (-11.512925148010254 <= 0 <= 2.3143386840820312
      ↔ -1 <= normalize small_extractor 0 <= 1)
   ∧ normalize small_extractor (denormalize small_extractor 1) = 1)%R.
Proof.
  apply (normalize_onto_unit_interval small_extractor 0 1). simpl. lra.
Defined.

(** *** The spectrogram: range, shape and padding errors *)

Section SpectrogramEdges.
Context `{Collaborators}.
Variable self : UnivNetFeatureExtractor.

(** X4.  With a positive clip value and a positive factor, a returned
    log-mel spectrogram has as many columns as the filter bank has mel
    filters, and none of its entries is below [ln (clip * factor)]. *)
Theorem log_mel_spectrogram_floor (waveform : list R) (out : array2 R) :
  (0 < compression_clip_val self)%R → (0 < compression_factor self)%R →
  mel_spectrogram self waveform = Ok out →
  shape1 out = shape1 (mel_filters self)
  ∧ ∀ t m, (t < shape0 out)%nat → (m < shape1 out)%nat →
      (ln (compression_clip_val self * compression_factor self) <= get out t m)%R.
Proof.
  intros Hclip Hfactor. unfold mel_spectrogram. intros Hout.
  apply rbind_Ok in Hout as (padded & _ & Hout).
  apply rbind_Ok in Hout as (cs & _ & Hout).
  apply rbind_Ok in Hout as (mel & Hmel & [= <-]).
  unfold np_matmul in Hmel. destruct (negb _); [discriminate|]. injection Hmel as <-.
  split; [reflexivity|]. simpl. intros t m Ht Hm.
  unfold transpose. simpl. rewrite get_tabulate by assumption.
  rewrite get_amap by assumption.
  unfold dynamic_range_compression.
  apply ln_le_compat; [now apply Rmult_lt_0_compat|].
  apply Rmult_le_compat_r; [lra | apply Rmax_r].
Qed.

(** X5.  Before the STFT is reached, [mel_spectrogram] raises a
    [ValueError]: for every waveform when the hop length exceeds the FFT
    length by two or more (the padding amount is then negative), and for
    the empty waveform when the FFT length exceeds the hop length by two or
    more (there is nothing to reflect). *)
Theorem mel_spectrogram_padding_errors (waveform : list R) :
  (n_fft self + 2 ≤ hop_length self →
   mel_spectrogram self waveform
   = Raise (ValueError "index can't contain negative values"))
  ∧ (hop_length self + 2 ≤ n_fft self →
     mel_spectrogram self []
     = Raise (ValueError
                "can't extend empty axis 0 using modes other than 'constant' or 'empty'")).
Proof.
  unfold mel_spectrogram, np_pad_reflect, reflect_pad_amount. split; intros Hlen.
  - assert ((((n_fft self - hop_length self) `quot` 2) <? 0) = true) as ->; [|reflexivity].
    apply Z.ltb_lt. Z.quot_rem_to_equations. lia.
  - assert ((((n_fft self - hop_length self) `quot` 2) <? 0) = false) as ->.
    { apply Z.ltb_ge. Z.quot_rem_to_equations. lia. }
    assert ((((n_fft self - hop_length self) `quot` 2) =? 0) = false) as ->; [|reflexivity].
    apply Z.eqb_neq. Z.quot_rem_to_equations. lia.
Qed.
End SpectrogramEdges.

Lemma log_mel_spectrogram_floor_witness :
  ∃ out,
    @mel_spectrogram reference small_extractor [1; 2; 3; 4; 5; 6]%R = Ok out
    ∧ shape1 out = 2%nat
    ∧ ∀ t m, (t < shape0 out)%nat → (m < shape1 out)%nat →
        (ln (1e-5 * 1.0) <= get out t m)%R.
Proof.
  eexists. split; [reflexivity|].
  refine (@log_mel_spectrogram_floor reference small_extractor
            [1; 2; 3; 4; 5; 6]%R _ _ _ eq_refl); simpl; lra.
Defined.

Lemma mel_spectrogram_padding_errors_witness :
  @mel_spectrogram reference small_extractor []
  = Raise (ValueError
             "can't extend empty axis 0 using modes other than 'constant' or 'empty'").
Proof.
  apply (proj2 (@mel_spectrogram_padding_errors reference small_extractor [])).
  simpl. lia.
Defined.

(** *** Reflect padding *)

Lemma reflect_index_single_fold (n : nat) (j : Z) :
  (2 <= n)%nat → - (Z.of_nat n - 1) ≤ j ≤ 2 * (Z.of_nat n - 1) →
  reflect_index n j =
  Z.to_nat (if j <? 0 then - j
            else if j <? Z.of_nat n then j else 2 * (Z.of_nat n - 1) - j).
Proof.
  intros Hn Hj. unfold reflect_index.
  destruct (n <=? 1)%nat eqn:Hsmall; [apply Nat.leb_le in Hsmall; lia|].
  set (period := 2 * (Z.of_nat n - 1)).
  assert (0 < period) as Hperiod by (unfold period; lia).
  destruct (Z.ltb_spec j 0) as [Hneg | Hpos].
  - rewrite <- (Z.mod_add j 1 period) by lia.
    rewrite Z.mod_small by (unfold period in *; lia).
    destruct (Z.ltb_spec (j + 1 * period) (Z.of_nat n)); unfold period in *; lia.
  - destruct (Z.eq_dec j period) as [-> | Hne].
    + rewrite Z.mod_same by lia.
      destruct (Z.ltb_spec 0 (Z.of_nat n)); [|lia].
      destruct (Z.ltb_spec period (Z.of_nat n)); unfold period in *; lia.
    + rewrite Z.mod_small by (unfold period in *; lia).
      destruct (Z.ltb_spec j (Z.of_nat n)); reflexivity.
Qed.

(** X6.  Reflect padding of a waveform of [n >= 2] samples by [p <= n - 1]
    samples on each side, as [mel_spectrogram] applies it, gives [n + 2p]
    samples: the waveform sits at offset [p], and the [k]-th sample before
    it and after it are the [k]-th sample inwards from that end, the edge
    sample itself not being repeated. *)
Theorem reflect_padding_mirrors {A} (w : list A) (p : nat) (d : A) :
  (2 <= length w)%nat → (p <= length w - 1)%nat →
  ∃ padded,
    np_pad_reflect w (Z.of_nat p) (Z.of_nat p) = Ok padded
    ∧ length padded = (length w + 2 * p)%nat
    ∧ (∀ i, (i < length w)%nat → nth (p + i) padded d = nth i w d)
    ∧ (∀ k, (1 <= k <= p)%nat →
         nth (p - k) padded d = nth k w d
         ∧ nth (p + length w - 1 + k) padded d = nth (length w - 1 - k) w d).
Proof.
  intros Hn Hp. unfold np_pad_reflect.
  assert ((Z.of_nat p <? 0) || (Z.of_nat p <? 0) = false) as ->.
  { destruct (Z.ltb_spec (Z.of_nat p) 0); [lia|reflexivity]. }
  destruct w as [|x w']; [simpl in Hn; lia|].
  set (w := x :: w') in *.
  eexists. split; [reflexivity|].
  rewrite length_map, length_seq, !Nat2Z.id.
  split; [lia|].
  assert (∀ j idx, (j < p + length w + p)%nat →
            reflect_index (length w) (Z.of_nat j - Z.of_nat p) = idx →
            (idx < length w)%nat →
            nth j
              (map (λ i, nth (reflect_index (length w) (Z.of_nat i - Z.of_nat p)) w x)
                 (seq 0 (p + length w + p))) d
            = nth idx w d) as Hnth.
  { intros j idx Hj <- Hidx. rewrite nth_map_seq by assumption. now apply nth_indep. }
  assert (∀ j, - (Z.of_nat (length w) - 1) ≤ j ≤ 2 * (Z.of_nat (length w) - 1) →
            (j < 0 → reflect_index (length w) j = Z.to_nat (- j))
            ∧ (0 ≤ j < Z.of_nat (length w) → reflect_index (length w) j = Z.to_nat j)
            ∧ (Z.of_nat (length w) ≤ j →
               reflect_index (length w) j
               = Z.to_nat (2 * (Z.of_nat (length w) - 1) - j))) as Hfold.
  { intros j Hj. rewrite reflect_index_single_fold by lia.
    destruct (Z.ltb_spec j 0); [repeat split; intros; (reflexivity || lia)|].
    destruct (Z.ltb_spec j (Z.of_nat (length w)));
      repeat split; intros; (reflexivity || lia). }
  split.
  - intros i Hi. apply Hnth; [lia| |assumption].
    destruct (Hfold (Z.of_nat (p + i) - Z.of_nat p)) as (_ & -> & _); lia.
  - intros k Hk. split.
    + apply Hnth; [lia| |lia].
      destruct (Hfold (Z.of_nat (p - k) - Z.of_nat p)) as (-> & _ & _); lia.
    + apply Hnth; [lia| |lia].
      destruct (Hfold (Z.of_nat (p + length w - 1 + k) - Z.of_nat p)) as (_ & _ & ->); lia.
Qed.

Lemma reflect_padding_mirrors_witness :
  ∃ padded,
    np_pad_reflect [10; 20; 30; 40] 2 2 = Ok padded
    ∧ length padded = 8%nat
    ∧ (∀ i, (i < 4)%nat → nth (2 + i) padded 0 = nth i [10; 20; 30; 40] 0)
    ∧ (∀ k, (1 <= k <= 2)%nat →
         nth (2 - k) padded 0 = nth k [10; 20; 30; 40] 0
         ∧ nth (2 + 4 - 1 + k) padded 0 = nth (4 - 1 - k) [10; 20; 30; 40] 0).
Proof.
  apply (reflect_padding_mirrors [10; 20; 30; 40] 2 0); simpl; lia.
Defined.

Example reflect_padding_run :
  np_pad_reflect [10; 20; 30; 40] 2 2 = Ok [30; 20; 10; 20; 30; 40; 30; 20].
Proof. reflexivity. Qed.

(** ** Properties of the ImageBind import structure *)

Section ImageBindFacts.
Import ImageBind.

Lemma same_elements_spec (l1 l2 : list (string * string)) :
  same_elements l1 l2 = true → ∀ x, x ∈ l1 ↔ x ∈ l2.
Proof.
  unfold same_elements. intros Hsame x.
  apply andb_prop in Hsame as [H12 H21].
  rewrite forallb_forall in H12, H21.
  split; intros Hx; apply list_elem_of_In in Hx.
  - specialize (H12 _ Hx). now apply bool_decide_eq_true in H12.
  - specialize (H21 _ Hx). now apply bool_decide_eq_true in H21.
Qed.

Lemma exported_spec (d : gmap string (list string)) (m n : string) :
  (m, n) ∈ exported d ↔ ∃ names, d !! m = Some names ∧ n ∈ names.
Proof.
  unfold exported. rewrite list_elem_of_In, in_concat. split.
  - intros (l & Hl & Hin). apply in_map_iff in Hl as ([m' names] & <- & Hentry).
    simpl in Hin. apply in_map_iff in Hin as (n' & [= <- <-] & Hn').
    exists names. split.
    + now apply elem_of_map_to_list, list_elem_of_In.
    + now apply list_elem_of_In.
  - intros (names & Hm & Hn). exists (map (pair m) names). split.
    + apply in_map_iff. exists (m, names). split; [reflexivity|].
      now apply list_elem_of_In, elem_of_map_to_list.
    + apply in_map. now apply list_elem_of_In.
Qed.

Lemma import_structure_exports (b : backends) :
  ∃ d,
    _import_structure b = Some d
    ∧ same_elements (exported d) (type_checking_imports b) = true.
Proof.
  destruct b as [[] [] [] []]; (eexists; split; [reflexivity|]; vm_compute; reflexivity).
Qed.

(** X18.  Whatever backends are available, building [_import_structure]
    raises no [KeyError], and the objects it exports are exactly the
    objects the [TYPE_CHECKING] branch imports, each from the same
    submodule. *)
Theorem import_structure_matches_type_checking (b : backends) :
  ∃ d,
    _import_structure b = Some d
    ∧ ∀ m n,
        (∃ names, d !! m = Some names ∧ n ∈ names) ↔ (m, n) ∈ type_checking_imports b.
Proof.
  destruct (import_structure_exports b) as (d & Hd & Hsame).
  exists d. split; [assumption|].
  intros m n. rewrite <- exported_spec. now apply same_elements_spec.
Qed.

Lemma is_Some_iff_flag {A} (o : option A) (flag : bool) :
  match o with Some _ => true | None => false end = flag → (is_Some o ↔ flag = true).
Proof.
  destruct o as [x|]; intros <-; split.
  - reflexivity.
  - intros _. now exists x.
  - intros [x [=]].
  - discriminate.
Qed.

(** X19.  An optional entry exists exactly when its backend is available:
    the fast tokenizer with [tokenizers], the image processors with
    [vision], the models with [torch]; the feature extractors are the IMU
    one, then the image one with [vision], then the audio one with
    [speech]; the configuration, processor and tokenizer entries never
    change. *)
Theorem optional_exports_follow_backends (b : backends) :
  ∃ d,
    _import_structure b = Some d
    ∧ (is_Some (d !! "tokenization_imagebind_fast") ↔ is_tokenizers_available b = true)
    ∧ (is_Some (d !! "image_processing_imagebind") ↔ is_vision_available b = true)
    ∧ (is_Some (d !! "modeling_imagebind") ↔ is_torch_available b = true)
    ∧ d !! "feature_extraction_imagebind"
      = Some ("ImageBindImuFeatureExtractor"
              :: (if is_vision_available b then ["ImageBindFeatureExtractor"] else [])
              ++ (if is_speech_available b then ["ImageBindAudioFeatureExtractor"] else []))
    ∧ d !! "configuration_imagebind" = base_structure !! "configuration_imagebind"
    ∧ d !! "processing_imagebind" = Some ["ImageBindProcessor"]
    ∧ d !! "tokenization_imagebind" = Some ["ImageBindTokenizer"].
Proof.
  destruct b as [[] [] [] []];
    (eexists; split; [reflexivity|];
     split; [apply is_Some_iff_flag; vm_compute; reflexivity|];
     split; [apply is_Some_iff_flag; vm_compute; reflexivity|];
     split; [apply is_Some_iff_flag; vm_compute; reflexivity|];
     repeat split; vm_compute; reflexivity).
Qed.

(** X20.  For every set of backends, no object name is exported by two
    submodules, nor twice by one. *)
Theorem exported_names_distinct (b : backends) :
  ∃ d, _import_structure b = Some d ∧ NoDup (map snd (exported d)).
Proof.
  destruct b as [[] [] [] []];
    (eexists; split; [reflexivity|];
     apply (bool_decide_unpack _); vm_compute; exact I).
Qed.

(** X21.  Making more backends available only adds exports: every object
    exported with the backends [b] is exported, from the same submodule,
    with any backends [b'] that include them. *)
Theorem exports_grow_with_backends (b b' : backends) :
  backends_le b b' →
  ∃ d d',
    _import_structure b = Some d
    ∧ _import_structure b' = Some d'
    ∧ ∀ m n, (m, n) ∈ exported d → (m, n) ∈ exported d'.
Proof.
  intros (Htok & Hvision & Hspeech & Htorch).
  assert (∀ l1 l2 : list (string * string),
            forallb (λ x, bool_decide (x ∈ l2)) l1 = true →
            ∀ m n, (m, n) ∈ l1 → (m, n) ∈ l2) as Hincl.
  { intros l1 l2 Hall m n Hin. rewrite forallb_forall in Hall.
    apply list_elem_of_In in Hin. specialize (Hall _ Hin).
    now apply bool_decide_eq_true in Hall. }
  destruct (import_structure_exports b) as (d & Hd & Hsame).
  destruct (import_structure_exports b') as (d' & Hd' & Hsame').
  exists d, d'. split; [assumption|]. split; [assumption|].
  intros m n Hin.
  apply (same_elements_spec _ _ Hsame'). apply (same_elements_spec _ _ Hsame) in Hin.
  revert m n Hin. clear Hd Hd' Hsame Hsame' d d'.
  destruct b as [tok vision speech torch], b' as [tok' vision' speech' torch'].
  simpl in *.
  destruct tok; [rewrite (Is_true_true_1 _ (Htok I))|]; clear Htok;
  (destruct vision; [rewrite (Is_true_true_1 _ (Hvision I))|]); clear Hvision;
  (destruct speech; [rewrite (Is_true_true_1 _ (Hspeech I))|]); clear Hspeech;
  (destruct torch; [rewrite (Is_true_true_1 _ (Htorch I))|]); clear Htorch;
  repeat match goal with
         | flag : bool |- _ => destruct flag
         end;
  (apply Hincl; vm_compute; reflexivity).
Qed.
End ImageBindFacts.

Lemma exports_grow_with_backends_witness :
  ∃ d d',
    ImageBind._import_structure
      {| ImageBind.is_tokenizers_available := false;
         ImageBind.is_vision_available := true;
         ImageBind.is_speech_available := false;
         ImageBind.is_torch_available := false |} = Some d
    ∧ ImageBind._import_structure
        {| ImageBind.is_tokenizers_available := true;
           ImageBind.is_vision_available := true;
           ImageBind.is_speech_available := false;
           ImageBind.is_torch_available := true |} = Some d'
    ∧ ∀ m n, (m, n) ∈ ImageBind.exported d → (m, n) ∈ ImageBind.exported d'.
Proof.
  apply exports_grow_with_backends.
  unfold ImageBind.backends_le. simpl. tauto.
Defined.

(** ** Further properties of padding, noise and the call *)

Section EndPadding.
Context `{Collaborators}.
Variable self : UnivNetFeatureExtractor.

(** X7.  End-padding twice with the same zero value is end-padding once
    with the sum of the two lengths. *)
Theorem pad_spectrogram_end_twice (spectrogram padded : array2 R)
    (n1 n2 : Z) (zero : option R) :
  0 ≤ n2 →
  pad_spectrogram_end self spectrogram (Some n1) zero = Ok padded →
  pad_spectrogram_end self padded (Some n2) zero
  = pad_spectrogram_end self spectrogram (Some (n1 + n2)) zero.
Proof.
  intros Hn2. unfold pad_spectrogram_end, np_full_float32, np_full. simpl.
  destruct (Z.ltb_spec n1 0) as [|Hn1]; [discriminate|].
  destruct (Z.ltb_spec n2 0); [lia|].
  destruct (Z.ltb_spec (n1 + n2) 0); [lia|].
  simpl. unfold np_concatenate. simpl. rewrite Nat.eqb_refl. simpl.
  intros [= <-]. simpl. rewrite Nat.eqb_refl. simpl. f_equal.
  rewrite Z2Nat.inj_add, Nat.add_assoc by assumption.
  apply tabulate_ext. intros i j Hi Hj.
  destruct (Nat.ltb_spec i (shape0 spectrogram + Z.to_nat n1)) as [Hin|Hout].
  - rewrite get_tabulate by assumption.
    destruct (Nat.ltb_spec i (shape0 spectrogram)); [reflexivity|].
    now rewrite !get_tabulate by lia.
  - destruct (Nat.ltb_spec i (shape0 spectrogram)); [lia|].
    now rewrite !get_tabulate by lia.
Qed.

(** X8.  End-padding with a negative length (given or configured) raises a
    [ValueError]; with length zero it returns the shape and the entries of
    its argument. *)
Theorem pad_spectrogram_end_bounds (spectrogram : array2 R)
    (pad_length : option Z) (zero : option R) :
  (default (pad_end_length self) pad_length < 0 →
   pad_spectrogram_end self spectrogram pad_length zero
   = Raise (ValueError "negative dimensions are not allowed"))
  ∧ (default (pad_end_length self) pad_length = 0 →
     ∃ out,
       pad_spectrogram_end self spectrogram pad_length zero = Ok out
       ∧ shape out = shape spectrogram
       ∧ ∀ i j, (i < shape0 spectrogram)%nat → (j < shape1 spectrogram)%nat →
           get out i j = get spectrogram i j).
Proof.
  unfold pad_spectrogram_end, np_full_float32, np_full. split.
  - intros Hneg. destruct (Z.ltb_spec (default (pad_end_length self) pad_length) 0);
      [reflexivity|lia].
  - intros ->. simpl. unfold np_concatenate. simpl. rewrite Nat.eqb_refl. simpl.
    eexists. split; [reflexivity|]. split.
    + unfold shape. simpl. now rewrite Nat.add_0_r.
    + intros i j Hi Hj. rewrite get_tabulate by lia.
      destruct (Nat.ltb_spec i (shape0 spectrogram)); [reflexivity|lia].
Qed.

(** X9.  [generate_noise] with a negative channel count raises a
    [ValueError] in every state.  In all cases the log is untouched; a
    generator of the caller remains the caller's generator and no OS
    entropy is consumed; without one, the caller still has none
    afterwards. *)
Theorem generate_noise_effects (noise_length : nat) (channels : option Z) (st : State) :
  (default (model_in_channels self) channels < 0 →
   fst (generate_noise self noise_length channels st)
   = Raise (ValueError "negative dimensions are not allowed"))
  ∧ warnings (snd (generate_noise self noise_length channels st)) = warnings st
  ∧ (is_Some (generator_obj st) →
     is_Some (generator_obj (snd (generate_noise self noise_length channels st)))
     ∧ os_entropy (snd (generate_noise self noise_length channels st)) = os_entropy st)
  ∧ (generator_obj st = None →
     generator_obj (snd (generate_noise self noise_length channels st)) = None).
Proof.
  unfold generate_noise, standard_normal_array.
  destruct (generator_obj st) as [g|] eqn:Hgen.
  - destruct (Z.ltb_spec (default (model_in_channels self) channels) 0).
    + split; [reflexivity|]. split; [reflexivity|]. split; [|discriminate].
      intros _. split; [now eexists | reflexivity].
    + destruct (standard_normal g _) as [samples g'].
      split; [lia|]. split; [reflexivity|]. split; [|discriminate].
      intros _. split; [now eexists | reflexivity].
  - destruct (default_rng (os_entropy st)) as [g e].
    destruct (Z.ltb_spec (default (model_in_channels self) channels) 0).
    + split; [reflexivity|]. split; [reflexivity|]. split; [|reflexivity].
      intros [? [=]].
    + destruct (standard_normal g _) as [samples g'].
      split; [lia|]. split; [reflexivity|]. split; [|reflexivity].
      intros [? [=]].
Qed.
End EndPadding.

Lemma pad_spectrogram_end_twice_witness :
  ∃ padded,
    pad_spectrogram_end small_extractor (tabulate 3 2 (λ _ _, 1%R)) (Some 2) None = Ok padded
    ∧ pad_spectrogram_end small_extractor padded (Some 1) None
      = pad_spectrogram_end small_extractor (tabulate 3 2 (λ _ _, 1%R)) (Some (2 + 1)) None.
Proof.
  eexists. split; [reflexivity|].
  apply (pad_spectrogram_end_twice small_extractor _ _ 2 1 None); [lia|reflexivity].
Defined.

Lemma pad_spectrogram_end_bounds_witness :
  pad_spectrogram_end small_extractor (tabulate 3 2 (λ _ _, 1%R)) (Some (-1)) None
  = Raise (ValueError "negative dimensions are not allowed").
Proof.
  apply (proj1 (pad_spectrogram_end_bounds small_extractor _ (Some (-1)) None)).
  simpl. lia.
Defined.

Lemma generate_noise_effects_witness :
  fst (@generate_noise reference small_extractor 3 (Some (-1)) seeded_state)
  = Raise (ValueError "negative dimensions are not allowed").
Proof.
  apply (proj1 (@generate_noise_effects reference small_extractor 3 (Some (-1))
                  seeded_state)).
  simpl. lia.
Defined.

Section CallFrames.
Context `{Collaborators}.
Variable self : UnivNetFeatureExtractor.

Lemma generate_noise_with_warning (n : nat) (channels : option Z)
    (msg : string) (st : State) :
  generate_noise self n channels (with_warning msg st)
  = (fst (generate_noise self n channels st),
     with_warning msg (snd (generate_noise self n channels st))).
Proof.
  unfold generate_noise, with_warning. simpl.
  destruct (generator_obj st) as [g|].
  - destruct (standard_normal_array g n _). reflexivity.
  - destruct (default_rng (os_entropy st)). reflexivity.
Qed.

Lemma mmap_noise_with_warning (a : call_args) (l : list (array2 R))
    (msg : string) (st : State) :
  let noise spectrogram :=
    generate_noise self (shape0 spectrogram) (a_model_in_channels a) in
  mmap noise l (with_warning msg st)
  = (fst (mmap noise l st), with_warning msg (snd (mmap noise l st))).
Proof.
  intros noise. revert st. induction l as [|s l IH]; intros st; [reflexivity|].
  simpl. unfold mbind at 1 3 5. unfold noise at 1 3 5.
  rewrite generate_noise_with_warning.
  destruct (generate_noise self (shape0 s) (a_model_in_channels a) st) as [[nz|e] st1];
    simpl; [|reflexivity].
  unfold mbind. rewrite IH.
  destruct (mmap noise l st1) as [[ys|e] st2]; reflexivity.
Qed.

Lemma featurize_with_warning (a : call_args) (msg : string) (st : State) :
  featurize self a (with_warning msg st)
  = (fst (featurize self a st), with_warning msg (snd (featurize self a st))).
Proof.
  rewrite !featurize_stages.
  destruct (padded_spectrograms self a) as [sp|e]; [|reflexivity].
  destruct (a_return_noise a); [|reflexivity].
  rewrite (mmap_noise_with_warning a sp msg st).
  destruct (mmap _ sp st) as [[nz|e] st1]; reflexivity.
Qed.

Lemma mmap_noise_no_generator (a : call_args) (l : list (array2 R)) (st : State) :
  generator_obj st = None →
  generator_obj
    (snd (mmap (λ spectrogram,
                  generate_noise self (shape0 spectrogram) (a_model_in_channels a)) l st))
  = None.
Proof.
  revert st. induction l as [|s l IH]; intros st Hnone; [assumption|].
  simpl. unfold mbind at 1.
  assert (generator_obj
            (snd (generate_noise self (shape0 s) (a_model_in_channels a) st)) = None)
    as Hs.
  { unfold generate_noise. rewrite Hnone.
    destruct (default_rng (os_entropy st)). reflexivity. }
  destruct (generate_noise self (shape0 s) (a_model_in_channels a) st) as [[nz|e] st1];
    simpl in Hs; [|exact Hs].
  unfold mbind. specialize (IH st1 Hs).
  destruct (mmap _ l st1) as [[ys|e] st2]; exact IH.
Qed.

(** X10.  A call with [return_noise=False] touches neither the caller's
    generator nor the OS entropy: the state it leaves is the state it
    found, with the warning added when no sampling rate was passed; and a
    batch it returns has no noise. *)
Theorem call_without_noise (a : call_args) (st : State) :
  a_return_noise a = false →
  snd (__call__ self a st)
  = match a_sampling_rate a with
    | Some _ => st
    | None => with_warning sampling_rate_warning st
    end
  ∧ ∀ b st', __call__ self a st = (Ok b, st') → bf_noise_sequence b = None.
Proof.
  intros Hnoise.
  assert (∀ st0, snd (featurize self a st0) = st0) as Hframe.
  { intros st0. rewrite featurize_stages, Hnoise.
    destruct (padded_spectrograms self a); reflexivity. }
  split.
  - rewrite call_unfold. destruct (a_sampling_rate a) as [sr|]; [|apply Hframe].
    destruct (bool_decide (sr ≠ sampling_rate self)); [reflexivity|apply Hframe].
  - intros b st' Hcall. apply call_Ok_inv in Hcall as [st0 Hcall].
    apply featurize_Ok_inv in Hcall as (sp & noise & _ & Hb & Hnone).
    rewrite Hnoise in Hnone. subst noise.
    now apply complete_Ok_inv in Hb as [_ Hb].
Qed.

(** X11.  A call given a generator consumes no OS entropy and leaves the
    caller with a generator; a call given none leaves the caller with
    none. *)
Theorem call_generator_frame (a : call_args) (st : State) :
  (is_Some (generator_obj st) →
   is_Some (generator_obj (snd (__call__ self a st)))
   ∧ os_entropy (snd (__call__ self a st)) = os_entropy st)
  ∧ (generator_obj st = None → generator_obj (snd (__call__ self a st)) = None).
Proof.
  assert (∀ st0,
            (is_Some (generator_obj st0) →
             is_Some (generator_obj (snd (featurize self a st0)))
             ∧ os_entropy (snd (featurize self a st0)) = os_entropy st0)
            ∧ (generator_obj st0 = None →
               generator_obj (snd (featurize self a st0)) = None)) as Hframe.
  { intros st0. rewrite featurize_stages.
    destruct (padded_spectrograms self a) as [sp|e]; [|now split].
    destruct (a_return_noise a); [|now split].
    split.
    - intros [g Hg]. destruct st0 as [gen e w]. simpl in Hg. subst gen.
      rewrite mmap_noise_supplied.
      destruct (noise_from self a g sp) as [[nz|err] g']; simpl; split;
        (now eexists) || reflexivity.
    - intros Hnone. pose proof (mmap_noise_no_generator a sp st0 Hnone) as Hgen.
      destruct (mmap _ sp st0) as [[nz|err] st1]; exact Hgen. }
  rewrite call_unfold. destruct (a_sampling_rate a) as [sr|].
  - destruct (bool_decide (sr ≠ sampling_rate self)); [now split|apply Hframe].
  - apply (Hframe (with_warning sampling_rate_warning st)).
Qed.

(** X12.  A single waveform is treated as a batch of one: a 1-D array [w],
    the one-item list [[w]] and, when [w] is not empty, the list of floats
    [w] give the same call. *)
Theorem unbatched_is_batch_of_one (a : call_args) (w : list R) (st : State) :
  __call__ self (with_raw_speech a (NdArray1 w)) st
  = __call__ self (with_raw_speech a (ListOfSeq [w])) st
  ∧ (w ≠ [] →
     __call__ self (with_raw_speech a (ListOfFloat w)) st
     = __call__ self (with_raw_speech a (ListOfSeq [w])) st).
Proof.
  split; [reflexivity|].
  intros Hw. destruct w as [|x w]; [congruence|]. reflexivity.
Qed.

(** X13.  Once the sampling-rate check is passed, an empty list as
    [raw_speech] raises an [IndexError]. *)
Theorem empty_list_raises_index_error (a : call_args) (st : State) :
  a_raw_speech a = ListOfFloat [] ∨ a_raw_speech a = ListOfSeq [] →
  a_sampling_rate a = None ∨ a_sampling_rate a = Some (sampling_rate self) →
  fst (__call__ self a st) = Raise (IndexError "list index out of range").
Proof.
  intros Hraw Hrate.
  assert (∀ st0, fst (featurize self a st0) = Raise (IndexError "list index out of range"))
    as Hfeat.
  { intros st0. rewrite featurize_stages.
    unfold padded_spectrograms, unpadded_spectrograms, padded_inputs.
    destruct Hraw as [-> | ->]; reflexivity. }
  rewrite call_unfold. destruct Hrate as [-> | ->]; [apply Hfeat|].
  rewrite bool_decide_eq_false_2 by (intros Hne; now apply Hne). apply Hfeat.
Qed.

(** X14.  Passing the configured sampling rate and passing none give the
    same result and the same generator and entropy; the only difference is
    the warning in the log. *)
Theorem matching_rate_same_as_omitted (a : call_args) (st : State) :
  a_sampling_rate a = Some (sampling_rate self) →
  fst (__call__ self (with_sampling_rate a None) st) = fst (__call__ self a st)
  ∧ snd (__call__ self (with_sampling_rate a None) st)
    = with_warning sampling_rate_warning (snd (__call__ self a st)).
Proof.
  intros Hrate. rewrite !call_unfold, Hrate. simpl.
  rewrite bool_decide_eq_false_2 by (intros Hne; now apply Hne).
  change (featurize self (with_sampling_rate a None)) with (featurize self a).
  rewrite featurize_with_warning. split; reflexivity.
Qed.
End CallFrames.

Section CallResults.
Context `{Collaborators}.
Variable self : UnivNetFeatureExtractor.

Lemma same_shapes_amap (f : R → R) (l : list (array2 R)) :
  same_shapes (map (amap f) l) = same_shapes l.
Proof.
  apply same_shapes_shape. rewrite map_map. reflexivity.
Qed.

(** X15.  Normalization is the last step and touches nothing else: when a
    call with [do_normalize=True] returns a batch, the same call with
    [do_normalize=False] returns, in the same final state, the batch with
    the same noise and tensor type whose spectrograms, normalized entry by
    entry, are those of the first. *)
Theorem normalization_is_last (a : call_args) (st : State) (b : BatchFeature) (st' : State) :
  __call__ self (with_do_normalize a (Some true)) st = (Ok b, st') →
  ∃ b0,
    __call__ self (with_do_normalize a (Some false)) st = (Ok b0, st')
    ∧ bf_spectrogram b = map (amap (normalize self)) (bf_spectrogram b0)
    ∧ bf_noise_sequence b = bf_noise_sequence b0
    ∧ bf_tensor_type b = bf_tensor_type b0.
Proof.
  assert (∀ sp noise b1,
            complete self (with_do_normalize a (Some true)) sp noise = Ok b1 →
            ∃ b0,
              complete self (with_do_normalize a (Some false)) sp noise = Ok b0
              ∧ bf_spectrogram b1 = map (amap (normalize self)) (bf_spectrogram b0)
              ∧ bf_noise_sequence b1 = bf_noise_sequence b0
              ∧ bf_tensor_type b1 = bf_tensor_type b0) as Hcomplete.
  { intros sp noise b1. unfold complete. simpl.
    destruct (a_return_tensors a) as [t|].
    - unfold convert_to_tensors. simpl. rewrite same_shapes_amap.
      destruct (_ && _); [|discriminate].
      intros [= <-]. eexists. repeat split.
    - intros [= <-]. eexists. repeat split. }
  assert (∀ st0,
            featurize self (with_do_normalize a (Some true)) st0 = (Ok b, st') →
            ∃ b0,
              featurize self (with_do_normalize a (Some false)) st0 = (Ok b0, st')
              ∧ bf_spectrogram b = map (amap (normalize self)) (bf_spectrogram b0)
              ∧ bf_noise_sequence b = bf_noise_sequence b0
              ∧ bf_tensor_type b = bf_tensor_type b0) as Hfeat.
  { intros st0. rewrite !featurize_stages.
    change (padded_spectrograms self (with_do_normalize a (Some true)))
      with (padded_spectrograms self a).
    change (padded_spectrograms self (with_do_normalize a (Some false)))
      with (padded_spectrograms self a).
    destruct (padded_spectrograms self a) as [sp|e]; [|discriminate].
    simpl.
    destruct (a_return_noise a).
    - destruct (mmap _ sp st0) as [[nz|e] st1]; [|discriminate].
      intros [= Hb <-]. destruct (Hcomplete _ _ _ Hb) as (b0 & Hb0 & Hrest).
      exists b0. now rewrite Hb0.
    - intros [= Hb <-]. destruct (Hcomplete _ _ _ Hb) as (b0 & Hb0 & Hrest).
      exists b0. now rewrite Hb0. }
  rewrite !call_unfold. simpl.
  destruct (a_sampling_rate a) as [sr|]; [|apply Hfeat].
  destruct (bool_decide (sr ≠ sampling_rate self)); [discriminate|apply Hfeat].
Qed.

Lemma rmap_length {A B} (f : A → result B) (l : list A) (l' : list B) :
  rmap f l = Ok l' → length l' = length l.
Proof.
  intros Hl. apply rmap_Forall2 in Hl. symmetry. exact (Forall2_length _ _ _ Hl).
Qed.

(** X16.  A returned batch holds one spectrogram for each waveform the
    sequence padding returned, and at least one; it holds noise exactly
    when [return_noise] is set, one array per spectrogram. *)
Theorem batch_sizes (a : call_args) (st : State) (b : BatchFeature) (st' : State) :
  __call__ self a st = (Ok b, st') →
  ∃ input_features,
    padded_inputs self a = Ok input_features
    ∧ input_features ≠ []
    ∧ length (bf_spectrogram b) = length input_features
    ∧ (if a_return_noise a
       then ∃ noise, bf_noise_sequence b = Some noise
                     ∧ length noise = length input_features
       else bf_noise_sequence b = None).
Proof.
  intros Hcall. apply call_Ok_inv in Hcall as [st0 Hcall].
  apply featurize_Ok_inv in Hcall as (sp & noise & Hsp & Hb & Hnoise).
  apply complete_Ok_inv in Hb as [Hspec Hnz].
  unfold padded_spectrograms in Hsp.
  apply rbind_Ok in Hsp as (mels & Hmels & Hsp).
  unfold unpadded_spectrograms in Hmels.
  apply rbind_Ok in Hmels as (inputs & Hinputs & Hmels).
  apply rbind_Ok in Hmels as (ms & Hms & Hmels).
  destruct inputs as [|w ws] eqn:Hin; [discriminate|]. injection Hmels as <-.
  apply rmap_length in Hms.
  assert (length sp = length (w :: ws)) as Hlen.
  { rewrite <- Hms, <- (length_map (amap np_float32) ms). destruct (a_pad_end a).
    - now apply rmap_length in Hsp.
    - now injection Hsp as <-. }
  assert (length (bf_spectrogram b) = length (w :: ws)) as Hlen'.
  { rewrite Hspec. destruct (default _ _); [now rewrite length_map|assumption]. }
  exists (w :: ws). split; [assumption|]. split; [discriminate|]. split; [assumption|].
  destruct (a_return_noise a); [|congruence].
  destruct Hnoise as (nz & -> & Hshapes). exists nz. split; [assumption|].
  rewrite <- Hlen. unfold noise_shapes in Hshapes.
  destruct sp as [|s sp'].
  - injection Hshapes as Hnil. symmetry in Hnil. now apply map_eq_nil in Hnil as ->.
  - destruct (_ <? 0); [discriminate|]. injection Hshapes as Hshapes.
    apply (f_equal (@length _)) in Hshapes. simpl in Hshapes.
    rewrite !length_map in Hshapes. simpl. congruence.
Qed.
End CallResults.

(** *** Serialization keeps what the constructor needs *)

Section Serialization.
Context `{Collaborators}.

Lemma init_derived (a : init_args) (e : UnivNetFeatureExtractor) :
  __init__ a = Ok e →
  n_fft e = match filter_length e with
            | None => optimal_fft_length (win_length e)
            | Some n => n
            end
  ∧ n_freqs e = n_fft e `div` 2 + 1
  ∧ num_max_samples e = max_length_s e * sampling_rate e
  ∧ window_function (win_length e) (win_function e) true = Ok (window e)
  ∧ mel_filter_bank (n_freqs e) (num_mel_bins e) (fmin e) (fmax e) (sampling_rate e)
      "slaney" "slaney" = Ok (mel_filters e).
Proof.
  unfold __init__. intros Hinit.
  apply rbind_Ok in Hinit as (w & Hw & Hinit).
  apply rbind_Ok in Hinit as (m & Hm & [= <-]).
  simpl. repeat split; assumption.
Qed.

(** X17.  The serialized form determines the extractor: two extractors
    built by [__init__] with the same [to_dict] are equal, the five dropped
    fields included, since those are computed from retained ones. *)
Theorem to_dict_determines_extractor (a1 a2 : init_args)
    (e1 e2 : UnivNetFeatureExtractor) :
  __init__ a1 = Ok e1 → __init__ a2 = Ok e2 →
  to_dict e1 = to_dict e2 → e1 = e2.
Proof.
  intros Hinit1 Hinit2 Hdict.
  apply init_derived in Hinit1 as (Hfft1 & Hfreqs1 & Hmax1 & Hwin1 & Hmel1).
  apply init_derived in Hinit2 as (Hfft2 & Hfreqs2 & Hmax2 & Hwin2 & Hmel2).
  assert (∀ key, key ∉ names → super_to_dict e1 !! key = super_to_dict e2 !! key) as Hall.
  { intros key Hkey. unfold to_dict in Hdict.
    rewrite <- (drop_derived_lookup_other (super_to_dict e1) key Hkey).
    rewrite <- (drop_derived_lookup_other (super_to_dict e2) key Hkey).
    now rewrite Hdict. }
  assert (∀ {A} (key : string) (value : A → pyval) (attribute : UnivNetFeatureExtractor → A),
            Inj (=) (=) value →
            key ∉ names →
            super_to_dict e1 !! key = Some (value (attribute e1)) →
            super_to_dict e2 !! key = Some (value (attribute e2)) →
            attribute e1 = attribute e2) as Hsame.
  { intros A key value attribute Hinj Hkey Hk1 Hk2.
    specialize (Hall key Hkey). rewrite Hk1, Hk2 in Hall.
    injection Hall as Hall. now apply Hinj. }
  assert (Inj (=) (=) PyInt) as Hint by (intros x y [=]; assumption).
  assert (Inj (=) (=) PyFloat) as Hfloat by (intros x y [=]; assumption).
  assert (Inj (=) (=) PyBool) as Hbool by (intros x y [=]; assumption).
  assert (Inj (=) (=) PyStr) as Hstr by (intros x y [=]; assumption).
  assert (Inj (=) (=) (from_option PyInt PyNone)) as Hopt
    by (intros [x|] [y|] [=]; congruence).
  assert (∀ key : string, bool_decide (key ∉ names) = true → key ∉ names) as Hnot
    by (intros key; apply bool_decide_eq_true_1).
  pose proof (Hsame _ "feature_size" PyInt feature_size Hint
                (Hnot "feature_size" eq_refl) eq_refl eq_refl).
  pose proof (Hsame _ "sampling_rate" PyInt sampling_rate Hint
                (Hnot "sampling_rate" eq_refl) eq_refl eq_refl).
  pose proof (Hsame _ "padding_value" PyFloat padding_value Hfloat
                (Hnot "padding_value" eq_refl) eq_refl eq_refl).
  pose proof (Hsame _ "do_normalize" PyBool do_normalize Hbool
                (Hnot "do_normalize" eq_refl) eq_refl eq_refl).
  pose proof (Hsame _ "num_mel_bins" PyInt num_mel_bins Hint
                (Hnot "num_mel_bins" eq_refl) eq_refl eq_refl).
  pose proof (Hsame _ "hop_length" PyInt hop_length Hint
                (Hnot "hop_length" eq_refl) eq_refl eq_refl).
  pose proof (Hsame _ "win_length" PyInt win_length Hint
                (Hnot "win_length" eq_refl) eq_refl eq_refl).
  pose proof (Hsame _ "win_function" PyStr win_function Hstr
                (Hnot "win_function" eq_refl) eq_refl eq_refl).
  pose proof (Hsame _ "filter_length" (from_option PyInt PyNone) filter_length Hopt
                (Hnot "filter_length" eq_refl) eq_refl eq_refl).
  pose proof (Hsame _ "fmin" PyFloat fmin Hfloat
                (Hnot "fmin" eq_refl) eq_refl eq_refl).
  pose proof (Hsame _ "fmax" PyFloat fmax Hfloat
                (Hnot "fmax" eq_refl) eq_refl eq_refl).
  pose proof (Hsame _ "mel_floor" PyFloat mel_floor Hfloat
                (Hnot "mel_floor" eq_refl) eq_refl eq_refl).
  pose proof (Hsame _ "max_length_s" PyInt max_length_s Hint
                (Hnot "max_length_s" eq_refl) eq_refl eq_refl).
  pose proof (Hsame _ "center" PyBool center Hbool
                (Hnot "center" eq_refl) eq_refl eq_refl).
  pose proof (Hsame _ "compression_factor" PyFloat compression_factor Hfloat
                (Hnot "compression_factor" eq_refl) eq_refl eq_refl).
  pose proof (Hsame _ "compression_clip_val" PyFloat compression_clip_val Hfloat
                (Hnot "compression_clip_val" eq_refl) eq_refl eq_refl).
  pose proof (Hsame _ "normalize_min" PyFloat normalize_min Hfloat
                (Hnot "normalize_min" eq_refl) eq_refl eq_refl).
  pose proof (Hsame _ "normalize_max" PyFloat normalize_max Hfloat
                (Hnot "normalize_max" eq_refl) eq_refl eq_refl).
  pose proof (Hsame _ "model_in_channels" PyInt model_in_channels Hint
                (Hnot "model_in_channels" eq_refl) eq_refl eq_refl).
  pose proof (Hsame _ "pad_end_length" PyInt pad_end_length Hint
                (Hnot "pad_end_length" eq_refl) eq_refl eq_refl).
  pose proof (Hsame _ "spectrogram_zero" PyFloat spectrogram_zero Hfloat
                (Hnot "spectrogram_zero" eq_refl) eq_refl eq_refl).
  clear Hall Hsame Hdict.
  destruct e1, e2. simpl in *. subst.
  f_equal; congruence.
Qed.
End Serialization.

(** *** Runs on the reference instance *)

Lemma call_without_noise_witness :
  snd (@__call__ reference small_extractor normalized_call seeded_state) = seeded_state
  ∧ ∀ b st',
      @__call__ reference small_extractor normalized_call seeded_state = (Ok b, st') →
      bf_noise_sequence b = None.
Proof.
  apply (@call_without_noise reference small_extractor normalized_call seeded_state).
  reflexivity.
Defined.

Lemma call_generator_frame_witness :
  is_Some (generator_obj
             (snd (@__call__ reference small_extractor batch_call seeded_state)))
  ∧ os_entropy (snd (@__call__ reference small_extractor batch_call seeded_state)) = 0.
Proof.
  apply (proj1 (@call_generator_frame reference small_extractor batch_call seeded_state)).
  now eexists.
Defined.

Lemma unbatched_is_batch_of_one_witness :
  @__call__ reference small_extractor
    (with_raw_speech batch_call (ListOfFloat [1; 2; 3; 4; 5; 6]%R)) seeded_state
  = @__call__ reference small_extractor
      (with_raw_speech batch_call (ListOfSeq [[1; 2; 3; 4; 5; 6]%R])) seeded_state.
Proof.
  apply (proj2 (@unbatched_is_batch_of_one reference small_extractor batch_call
                  [1; 2; 3; 4; 5; 6]%R seeded_state)).
  discriminate.
Defined.

Lemma empty_list_raises_index_error_witness :
  fst (@__call__ reference small_extractor
         (with_raw_speech batch_call (ListOfSeq [])) seeded_state)
  = Raise (IndexError "list index out of range").
Proof.
  apply (@empty_list_raises_index_error reference small_extractor
           (with_raw_speech batch_call (ListOfSeq [])) seeded_state).
  - right. reflexivity.
  - right. reflexivity.
Defined.

Lemma matching_rate_same_as_omitted_witness :
  fst (@__call__ reference small_extractor (with_sampling_rate batch_call None) seeded_state)
  = fst (@__call__ reference small_extractor batch_call seeded_state)
  ∧ snd (@__call__ reference small_extractor (with_sampling_rate batch_call None)
           seeded_state)
    = with_warning sampling_rate_warning
        (snd (@__call__ reference small_extractor batch_call seeded_state)).
Proof.
  apply (@matching_rate_same_as_omitted reference small_extractor batch_call seeded_state).
  reflexivity.
Defined.

Lemma normalization_is_last_witness :
  ∃ b st' b0,
    @__call__ reference small_extractor (with_do_normalize batch_call (Some true))
      seeded_state = (Ok b, st')
    ∧ @__call__ reference small_extractor (with_do_normalize batch_call (Some false))
        seeded_state = (Ok b0, st')
    ∧ bf_spectrogram b = map (amap (normalize small_extractor)) (bf_spectrogram b0)
    ∧ bf_noise_sequence b = bf_noise_sequence b0
    ∧ bf_tensor_type b = bf_tensor_type b0.
Proof.
  destruct (@__call__ reference small_extractor (with_do_normalize batch_call (Some true))
              seeded_state) as [r st'] eqn:Hcall.
  assert (∃ b, r = Ok b) as [b ->].
  { injection Hcall as <- _. eexists. reflexivity. }
  destruct (@normalization_is_last reference small_extractor batch_call seeded_state
              b st' Hcall) as (b0 & Hb0).
  exists b, st', b0. split; [reflexivity|exact Hb0].
Defined.

Lemma batch_sizes_witness :
  ∃ b st' noise,
    @__call__ reference small_extractor batch_call seeded_state = (Ok b, st')
    ∧ length (bf_spectrogram b) = 2%nat
    ∧ bf_noise_sequence b = Some noise
    ∧ length noise = 2%nat.
Proof.
  destruct (@__call__ reference small_extractor batch_call seeded_state)
    as [r st'] eqn:Hcall.
  assert (∃ b, r = Ok b) as [b ->].
  { injection Hcall as <- _. eexists. reflexivity. }
  destruct (@batch_sizes reference small_extractor batch_call seeded_state b st' Hcall)
    as (inputs & Hinputs & _ & Hlen & noise & Hnoise & Hlen').
  injection Hinputs as <-.
  exists b, st', noise. repeat split; assumption.
Defined.

Lemma to_dict_determines_extractor_witness :
  ∃ e1 e2,
    @__init__ reference small_init_args = Ok e1
    ∧ @__init__ reference nyquist_init_args = Ok e2
    ∧ to_dict e1 = to_dict e2
    ∧ e1 = e2.
Proof.
  eexists. eexists. split; [reflexivity|]. split; [reflexivity|]. split; [reflexivity|].
  apply (@to_dict_determines_extractor reference small_init_args nyquist_init_args);
    reflexivity.
Defined.

(** *** Composition and dimension errors of the call *)

Section CallComposition.
Context `{Collaborators}.
Variable self : UnivNetFeatureExtractor.

(** X22.  Without end-padding and normalization, the spectrograms of a
    returned batch are, item by item, the single-precision conversions
    ([astype(np.float32)]) of what [mel_spectrogram] returns for the
    waveforms that the sequence padding returned. *)
Theorem plain_call_is_mel_spectrogram (a : call_args) (st : State)
    (b : BatchFeature) (st' : State) :
  __call__ self a st = (Ok b, st') →
  a_pad_end a = false →
  default (do_normalize self) (a_do_normalize a) = false →
  ∃ input_features,
    padded_inputs self a = Ok input_features
    ∧ Forall2
        (λ waveform spectrogram,
           ∃ mel, mel_spectrogram self waveform = Ok mel
                  ∧ spectrogram = amap np_float32 mel)
        input_features (bf_spectrogram b).
Proof.
  intros Hcall Hpad Hnorm. apply call_Ok_inv in Hcall as [st0 Hcall].
  apply featurize_Ok_inv in Hcall as (sp & noise & Hsp & Hb & _).
  apply complete_Ok_inv in Hb as [Hspec _]. rewrite Hnorm in Hspec.
  unfold padded_spectrograms in Hsp. rewrite Hpad in Hsp.
  apply rbind_Ok in Hsp as (mels & Hmels & [= <-]).
  unfold unpadded_spectrograms in Hmels.
  apply rbind_Ok in Hmels as (inputs & Hinputs & Hmels).
  apply rbind_Ok in Hmels as (ms & Hms & Hmels).
  destruct inputs as [|w ws]; [discriminate|]. injection Hmels as <-.
  exists (w :: ws). split; [assumption|]. rewrite Hspec.
  apply Forall2_fmap_r.
  eapply Forall2_impl; [apply rmap_Forall2, Hms|].
  intros waveform mel Hmel. now exists mel.
Qed.

(** X23.  When the spectrograms have been computed, a negative end-padding
    length and, with [return_noise], a negative channel count each make
    the call raise the [ValueError] for negative dimensions, provided the
    sampling-rate check is passed. *)
Theorem call_dimension_errors (a : call_args) (st : State) (mels : list (array2 R)) :
  a_sampling_rate a = None ∨ a_sampling_rate a = Some (sampling_rate self) →
  unpadded_spectrograms self a = Ok mels →
  (a_pad_end a = true → default (pad_end_length self) (a_pad_length a) < 0 →
   fst (__call__ self a st) = Raise (ValueError "negative dimensions are not allowed"))
  ∧ (a_pad_end a = false → a_return_noise a = true →
     default (model_in_channels self) (a_model_in_channels a) < 0 →
     fst (__call__ self a st) = Raise (ValueError "negative dimensions are not allowed")).
Proof.
  intros Hrate Hmels.
  assert (∃ mel rest, mels = mel :: rest) as (mel & rest & ->).
  { unfold unpadded_spectrograms in Hmels.
    apply rbind_Ok in Hmels as (inputs & _ & Hmels).
    apply rbind_Ok in Hmels as (ms & Hms & Hmels).
    destruct inputs as [|w ws]; [discriminate|]. injection Hmels as <-.
    simpl in Hms. apply rbind_Ok in Hms as (y & _ & Hms).
    apply rbind_Ok in Hms as (ys & _ & [= <-]). simpl. eauto. }
  assert (∀ (P : result BatchFeature → Prop),
            (∀ st0, P (fst (featurize self a st0))) → P (fst (__call__ self a st)))
    as Hvia.
  { intros P HP. rewrite call_unfold. destruct Hrate as [-> | ->]; [apply HP|].
    rewrite bool_decide_eq_false_2 by (intros Hne; now apply Hne). apply HP. }
  split.
  - intros Hpad Hneg. apply Hvia. intros st0. rewrite featurize_stages.
    unfold padded_spectrograms. rewrite Hmels, Hpad. simpl.
    unfold pad_spectrogram_end at 1, np_full_float32, np_full.
    destruct (Z.ltb_spec (default (pad_end_length self) (a_pad_length a)) 0); [|lia].
    reflexivity.
  - intros Hpad Hnoise Hneg. apply Hvia. intros st0. rewrite featurize_stages.
    unfold padded_spectrograms. rewrite Hmels, Hpad, Hnoise. simpl rbind.
    pose proof (mmap_noise_shapes self a (mel :: rest) st0) as Hshapes.
    unfold noise_shapes in Hshapes.
    destruct (Z.ltb_spec (default (model_in_channels self) (a_model_in_channels a)) 0);
      [|lia].
    destruct (mmap _ (mel :: rest) st0) as [[nz|e] st1]; simpl in Hshapes;
      [discriminate|].
    injection Hshapes as ->. reflexivity.
Qed.
End CallComposition.

Lemma plain_call_is_mel_spectrogram_witness :
  ∃ b st' mel,
    @__call__ reference small_extractor plain_call initial_state = (Ok b, st')
    ∧ @mel_spectrogram reference small_extractor
        (map np_float32 [1; 2; 3; 4; 5; 6]%R) = Ok mel
    ∧ bf_spectrogram b = [amap np_float32 mel].
Proof.
  destruct (@__call__ reference small_extractor plain_call initial_state)
    as [r st'] eqn:Hcall.
  assert (∃ b, r = Ok b) as [b ->].
  { injection Hcall as <- _. eexists. reflexivity. }
  destruct (@plain_call_is_mel_spectrogram reference small_extractor plain_call
              initial_state b st' Hcall eq_refl eq_refl) as (inputs & Hinputs & Hall).
  injection Hinputs as <-.
  inversion Hall as [|? spectrogram ? rest (mel & Hmel & ->) Hrest]; subst.
  inversion Hrest; subst.
  exists b, st', mel. repeat split; [assumption|congruence].
Defined.

Lemma call_dimension_errors_witness :
  fst (@__call__ reference small_extractor (sized_call (Some 3) (Some (-2))) seeded_state)
  = Raise (ValueError "negative dimensions are not allowed").
Proof.
  eapply (proj1 (@call_dimension_errors reference small_extractor
                   (sized_call (Some 3) (Some (-2))) seeded_state _
                   (or_intror eq_refl) eq_refl)).
  - reflexivity.
  - simpl. lia.
Defined.
